(** * lean-cli: the HTTP client facade ([lean/components/util/http_client.py])

    A shallow embedding of the [HTTPClient] class and of the pieces of
    Python, [json] and [requests] that it calls, followed by the properties
    of the facade: what is logged, when an error reaches the caller, and
    what [download_file] leaves on disk and on the progress indicator.

    Conventions.
    - Python [str] is [string], read as a sequence of code points below
      256 (ASCII and Latin-1, as header values are decoded); [upper] and
      [lower] act on the ASCII letters.
    - Python [bytes] is [list Byte.byte].
    - Python [int] is [Z]; Python [float] is the primitive binary64 [float].
    - [**kwargs] is a [gmap string pyval]; a dict whose order is observable
      (a JSON payload) is an association list.
    - Exceptions are values of [exn]; a method is a function from the
      world to a [result] and a new world. *)

From Stdlib Require Import ZArith Floats DecimalString Ascii String.
From stdpp Require Import gmap strings list fin_maps.

Local Open Scope string_scope.
Local Open Scope list_scope.
Local Open Scope Z_scope.

(** ** Python values and builtins *)

Module Py.

(** The values that travel in [**kwargs] and in JSON payloads. *)
#[local] Unset Elimination Schemes.
Inductive pyval :=
| PNone
| PBool (b : bool)
| PInt (n : Z)
| PStr (s : string)
| PList (items : list pyval)
| PDict (items : list (string * pyval)).
#[local] Set Elimination Schemes.

(** [bool(v)]: what [if v:] tests. *)
Definition truthy (v : pyval) : bool :=
  match v with
  | PNone => false
  | PBool b => b
  | PInt n => negb (n =? 0)
  | PStr s => negb (String.eqb s EmptyString)
  | PList l => match l with [] => false | _ => true end
  | PDict d => match d with [] => false | _ => true end
  end.

(** [v is None] and [v == {}]. *)
Definition is_None (v : pyval) : bool :=
  match v with PNone => true | _ => false end.

Definition is_empty_dict (v : pyval) : bool :=
  match v with PDict [] => true | _ => false end.

(** [str(n)] for an int, as an f-string renders it. *)
Definition str_of_int (n : Z) : string :=
  NilZero.string_of_int (Z.to_int n).

(** [s.upper()] on ASCII text. *)
Definition upper_char (c : ascii) : ascii :=
  let n := nat_of_ascii c in
  if ((97 <=? n) && (n <=? 122))%nat then ascii_of_nat (n - 32) else c.

Fixpoint upper (s : string) : string :=
  match s with
  | EmptyString => EmptyString
  | String c s' => String (upper_char c) (upper s')
  end.

(** [s.lower()] on ASCII text (header names are looked up lower-cased). *)
Definition lower_char (c : ascii) : ascii :=
  let n := nat_of_ascii c in
  if ((65 <=? n) && (n <=? 90))%nat then ascii_of_nat (n + 32) else c.

Fixpoint lower (s : string) : string :=
  match s with
  | EmptyString => EmptyString
  | String c s' => String (lower_char c) (lower s')
  end.

(** *** [int(s)] on a string, base 10

    CPython strips blanks on both sides, accepts one sign, then wants
    decimal digits, with single underscores allowed between two digits;
    anything else is a [ValueError]. The blanks are the ASCII ones, 9 to
    13 and 32, and the Unicode blanks above 126, which [int] turns into
    spaces before it parses: below 256 these are U+0085 and U+00A0. The
    separators 28 to 31 are below 127 and stay as they are: no blanks. *)

Definition is_space (c : ascii) : bool :=
  let n := nat_of_ascii c in
  (((9 <=? n) && (n <=? 13)) || (n =? 32) || (n =? 133) || (n =? 160))%nat.

Definition digit_of (c : ascii) : option Z :=
  let n := nat_of_ascii c in
  if ((48 <=? n) && (n <=? 57))%nat then Some (Z.of_nat (n - 48)) else None.

Definition is_underscore (c : ascii) : bool := (nat_of_ascii c =? 95)%nat.

Fixpoint lstrip (s : string) : string :=
  match s with
  | String c s' => if is_space c then lstrip s' else s
  | EmptyString => EmptyString
  end.

Fixpoint all_space (s : string) : bool :=
  match s with
  | EmptyString => true
  | String c s' => is_space c && all_space s'
  end.

(** [digits_tail acc after_digit s]: the rest of the literal once a first
    digit has been read. [after_digit] is false right after an underscore,
    where a digit must follow. Trailing whitespace ends the literal. *)
Fixpoint digits_tail (acc : Z) (after_digit : bool) (s : string) : option Z :=
  match s with
  | EmptyString => if after_digit then Some acc else None
  | String c s' =>
      match digit_of c with
      | Some d => digits_tail (10 * acc + d) true s'
      | None =>
          if is_underscore c then
            if after_digit then digits_tail acc false s' else None
          else if is_space c && after_digit && all_space s' then Some acc
          else None
      end
  end.

Definition digits (s : string) : option Z :=
  match s with
  | EmptyString => None
  | String c s' =>
      match digit_of c with
      | Some d => digits_tail d true s'
      | None => None
      end
  end.

Definition int_of_str (s : string) : option Z :=
  match lstrip s with
  | EmptyString => None
  | String c s' =>
      if Ascii.eqb c "-" then Z.opp <$> digits s'
      else if Ascii.eqb c "+" then digits s'
      else digits (String c s')
  end.

(** *** [a / b] on ints and [x * 100]

    CPython's true division of two ints returns the binary64 nearest to
    the exact quotient; [SFdiv] on the integers taken as mantissas with
    exponent 0 computes that rounding. The divisor is never 0 where the
    client divides (the total size has been tested positive). *)
Definition SF_of_int (z : Z) : spec_float :=
  match z with
  | Z0 => S754_zero false
  | Zpos p => S754_finite false p 0
  | Zneg p => S754_finite true p 0
  end.

Definition truediv (a b : Z) : float :=
  SF2Prim (SFdiv prec emax (SF_of_int a) (SF_of_int b)).

Definition float_of_int (z : Z) : float :=
  SF2Prim (binary_normalize prec emax z 0 false).

Definition mul_int (x : float) (n : Z) : float :=
  PrimFloat.mul x (float_of_int n).

End Py.

Export Py.

(** ** [json.dumps(value, indent=4)]

    With an indent the standard library uses its Python encoder: items are
    separated by [","] and a newline, keys from values by [": "], empty
    containers print closed on the spot, and strings are escaped to ASCII. *)

Module Json.

Definition newline : string := String (ascii_of_nat 10) EmptyString.
Definition dquote : ascii := ascii_of_nat 34.

Definition hex_digit (n : nat) : ascii :=
  if (n <? 10)%nat then ascii_of_nat (48 + n) else ascii_of_nat (87 + n).

(** [\uXXXX] with lower-case hexadecimal digits, for a code below 256. *)
Definition escape_unicode (n : nat) : string :=
  "\u00" +:+ String (hex_digit (n / 16)) (String (hex_digit (n mod 16)) EmptyString).

Definition escape_char (c : ascii) : string :=
  let n := nat_of_ascii c in
  if (n =? 34)%nat then String "\" (String dquote EmptyString)
  else if (n =? 92)%nat then "\\"
  else if (n =? 8)%nat then "\b"
  else if (n =? 12)%nat then "\f"
  else if (n =? 10)%nat then "\n"
  else if (n =? 13)%nat then "\r"
  else if (n =? 9)%nat then "\t"
  else if ((32 <=? n) && (n <=? 126))%nat then String c EmptyString
  else escape_unicode n.

Fixpoint escape (s : string) : string :=
  match s with
  | EmptyString => EmptyString
  | String c s' => escape_char c +:+ escape s'
  end.

Definition quote (s : string) : string :=
  String dquote (escape s +:+ String dquote EmptyString).

Fixpoint spaces (n : nat) : string :=
  match n with
  | O => EmptyString
  | S n' => String " " (spaces n')
  end.

(** [newline_indent] of the encoder at nesting level [lvl]. *)
Definition newline_indent (lvl : nat) : string :=
  newline +:+ spaces (4 * lvl).

Fixpoint join (sep : string) (parts : list string) : string :=
  match parts with
  | [] => EmptyString
  | [p] => p
  | p :: rest => p +:+ sep +:+ join sep rest
  end.

Fixpoint encode (lvl : nat) (v : pyval) : string :=
  match v with
  | PNone => "null"
  | PBool true => "true"
  | PBool false => "false"
  | PInt n => str_of_int n
  | PStr s => quote s
  | PList [] => "[]"
  | PList items =>
      "[" +:+ newline_indent (S lvl)
        +:+ join ("," +:+ newline_indent (S lvl)) (map (encode (S lvl)) items)
        +:+ newline_indent lvl +:+ "]"
  | PDict [] => "{}"
  | PDict items =>
      "{" +:+ newline_indent (S lvl)
        +:+ join ("," +:+ newline_indent (S lvl))
              (map (fun kv => quote (fst kv) +:+ ": " +:+ encode (S lvl) (snd kv)) items)
        +:+ newline_indent lvl +:+ "}"
  end.

Definition dumps (v : pyval) : string := encode 0 v.

End Json.

(** ** [requests]: responses, and the exceptions a call can end with *)

Definition bytes : Type := list Byte.byte.

(** A [requests.Response] as the client uses it. [headers] is the
    case-insensitive mapping, keyed by the lower-cased header name.
    [decode] is [str(content, encoding, errors="replace")] for the
    encoding of this response. [cached] is the body once it has been read
    ([_content]); it is [None] for the answer to a [stream=True] request
    whose body nobody has read yet. [chunks] and [interruption] are the
    unread stream: the chunks that reading it yields, and the exception, if
    any, that it raises instead of ending. An [HTTPError] carries the
    response it was raised for. *)
Inductive Response :=
| mkResponse (status_code : Z) (reason url : string)
    (headers : gmap string string)
    (decode : bytes -> string)
    (cached : option bytes)
    (chunks : list bytes) (interruption : option exn)
with exn :=
| HTTPError (message : string) (response : Response)
| ValueError (literal : string)
| TypeError (message : string)
| KeyboardInterrupt
| OtherError (cls : string).

Definition status_code (r : Response) : Z :=
  match r with mkResponse sc _ _ _ _ _ _ _ => sc end.
Definition reason (r : Response) : string :=
  match r with mkResponse _ rs _ _ _ _ _ _ => rs end.
Definition url_of (r : Response) : string :=
  match r with mkResponse _ _ u _ _ _ _ _ => u end.
Definition headers (r : Response) : gmap string string :=
  match r with mkResponse _ _ _ h _ _ _ _ => h end.
Definition decode (r : Response) : bytes -> string :=
  match r with mkResponse _ _ _ _ d _ _ _ => d end.
Definition cached (r : Response) : option bytes :=
  match r with mkResponse _ _ _ _ _ c _ _ => c end.
Definition chunks (r : Response) : list bytes :=
  match r with mkResponse _ _ _ _ _ _ c _ => c end.
Definition interruption (r : Response) : option exn :=
  match r with mkResponse _ _ _ _ _ _ _ i => i end.

(** How a call ends: with a value, or with an exception on its way up. *)
Inductive result (A : Type) :=
| Ok (a : A)
| Raise (e : exn).
Arguments Ok {A} a.
Arguments Raise {A} e.

(** [except KeyboardInterrupt] matches this and nothing else of [exn]. *)
Definition is_KeyboardInterrupt (e : exn) : bool :=
  match e with KeyboardInterrupt => true | _ => false end.

(** [int(v)] *)
Definition py_int (v : pyval) : result Z :=
  match v with
  | PInt n => Ok n
  | PBool b => Ok (if b then 1 else 0)
  | PStr s =>
      match int_of_str s with
      | Some n => Ok n
      | None => Raise (ValueError s)
      end
  | _ => Raise (TypeError "int() argument must be a string or a real number")
  end.

Module Requests.

(** [response.headers.get(name, fallback)] *)
Definition headers_get (r : Response) (name : string) (fallback : pyval) : pyval :=
  match headers r !! lower name with
  | Some value => PStr value
  | None => fallback
  end.

(** [response.raise_for_status()]: [requests] raises for the 4xx and 5xx
    codes and returns for every other code. *)
Definition raise_for_status (r : Response) : result unit :=
  let sc := status_code r in
  if (400 <=? sc) && (sc <? 500) then
    Raise (HTTPError (str_of_int sc +:+ " Client Error: " +:+ reason r
                        +:+ " for url: " +:+ url_of r) r)
  else if (500 <=? sc) && (sc <? 600) then
    Raise (HTTPError (str_of_int sc +:+ " Server Error: " +:+ reason r
                        +:+ " for url: " +:+ url_of r) r)
  else Ok tt.

(** The response once its body [b] has been read: the body is kept and
    the stream is used up. *)
Definition with_content (b : bytes) (r : Response) : Response :=
  mkResponse (status_code r) (reason r) (url_of r) (headers r) (decode r)
    (Some b) [] None.

(** [response.content]: the body, read from the stream at the first use
    and kept from then on. Reading lets the exception of an interrupted
    stream out. The response is returned as the access leaves it. *)
Definition content (r : Response) : result (bytes * Response) :=
  match cached r with
  | Some b => Ok (b, r)
  | None =>
      match interruption r with
      | Some e => Raise e
      | None => Ok (concat (chunks r), with_content (concat (chunks r)) r)
      end
  end.

(** [response.text]: the empty string for an empty body, the decoded body
    otherwise. *)
Definition text (r : Response) : result (string * Response) :=
  match content r with
  | Raise e => Raise e
  | Ok (b, r') =>
      Ok (match b with [] => EmptyString | _ :: _ => decode r' b end, r')
  end.

(** [iter_slices(string, slice_length)] for a positive length; the body
    has at most [length b] slices, which bounds the loop. *)
Fixpoint iter_slices_upto (bound : nat) (slice_length : nat) (b : bytes) : list bytes :=
  match bound, b with
  | S bound', _ :: _ =>
      take slice_length b :: iter_slices_upto bound' slice_length (drop slice_length b)
  | _, _ => []
  end.

Definition iter_slices (slice_length : Z) (b : bytes) : list bytes :=
  iter_slices_upto (length b) (Z.to_nat slice_length) b.

(** [response.iter_content(chunk_size)]: the chunks it yields and the
    exception, if any, it raises instead of finishing. A body that has
    been read is handed out again in slices of [chunk_size]; an unread
    stream yields its own chunks. *)
Definition iter_content (chunk_size : Z) (r : Response) : list bytes * option exn :=
  match cached r with
  | Some b => (iter_slices chunk_size b, None)
  | None => (chunks r, interruption r)
  end.

End Requests.

(** ** The world around the client *)

(** The calls received by the logger and by the progress indicators it
    hands out, as a recording logger sees them. *)
Inductive event :=
| Debug (message : string)
| ProgressNew (progress : nat)
| AddTask (progress : nat) (description : string) (task : nat)
| Update (progress : nat) (task : nat) (completed : float)
| Stop (progress : nat).

Record World := mkWorld {
  (** [requests.request(method, url, **kwargs)] *)
  transport : string -> string -> gmap string pyval -> result Response;
  (** the events so far, oldest first *)
  journal : list event;
  (** the content of every file, by path *)
  disk : gmap string bytes;
  (** the paths with an open handle *)
  opened : list string;
  (** the paths that cannot be opened for writing *)
  denied : gset string
}.

Definition record (e : event) (w : World) : World :=
  mkWorld (transport w) (journal w ++ [e]) (disk w) (opened w) (denied w).

Definition with_disk (d : gmap string bytes) (w : World) : World :=
  mkWorld (transport w) (journal w) d (opened w) (denied w).

Definition with_opened (o : list string) (w : World) : World :=
  mkWorld (transport w) (journal w) (disk w) o (denied w).

(** ** Methods: state and exceptions *)

Definition M (A : Type) : Type := World -> result A * World.

#[export] Instance M_ret : MRet M := fun A a w => (Ok a, w).

#[export] Instance M_bind : MBind M := fun A B f m w =>
  match m w with
  | (Ok a, w') => f a w'
  | (Raise e, w') => (Raise e, w')
  end.

Definition raise {A : Type} (e : exn) : M A := fun w => (Raise e, w).

Definition lift {A : Type} (r : result A) : M A := fun w => (r, w).

(** [try: body / except KeyboardInterrupt as e: handler e]; any other
    exception leaves the statement as it came. *)
Definition try_except_KeyboardInterrupt {A : Type}
    (body : M A) (handler : exn -> M A) : M A := fun w =>
  match body w with
  | (Raise e, w') =>
      if is_KeyboardInterrupt e then handler e w' else (Raise e, w')
  | (Ok a, w') => (Ok a, w')
  end.

Definition skip : M unit := mret tt.

(** *** The filesystem *)

(** [path.open("wb")]: creates or truncates the file. *)
Definition open_wb (path : string) : M string := fun w =>
  if decide (path ∈ denied w) then (Raise (OtherError "PermissionError"), w)
  else (Ok path, with_opened (path :: opened w) (with_disk (<[path := []]> (disk w)) w)).

(** [file.write(data)] *)
Definition file_write (file : string) (data : bytes) : M unit := fun w =>
  (Ok tt, with_disk (<[file := default [] (disk w !! file) ++ data]> (disk w)) w).

(** [file.close()] *)
Definition file_close (file : string) (w : World) : World :=
  with_opened (filter (fun p => p ≠ file) (opened w)) w.

(** [with path.open("wb") as file: body file]: the handle is closed on the
    way out, whether the body returned or raised. *)
Definition with_open_wb {A : Type} (path : string) (body : string -> M A) : M A :=
  fun w =>
    match open_wb path w with
    | (Raise e, w') => (Raise e, w')
    | (Ok file, w') =>
        let '(r, w'') := body file w' in (r, file_close file w'')
    end.

(** *** The logger *)

Definition is_ProgressNew (e : event) : bool :=
  match e with ProgressNew _ => true | _ => false end.

Definition is_AddTask (p : nat) (e : event) : bool :=
  match e with AddTask q _ _ => Nat.eqb q p | _ => false end.

Definition is_Update (e : event) : bool :=
  match e with Update _ _ _ => true | _ => false end.

Definition is_Stop (e : event) : bool :=
  match e with Stop _ => true | _ => false end.

Definition is_Debug (e : event) : bool :=
  match e with Debug _ => true | _ => false end.

Definition count (f : event -> bool) (j : list event) : nat :=
  length (List.filter f j).

(** Modelled from the spec: the [Logger] class of
    [lean/components/util/logger.py] is not part of the sources at hand.
    Section 6 gives its interface: a debug-level text logging operation and
    a factory for a progress indicator that adds a task returning a task
    handle, updates a task's completed percentage, and stops. Each call is
    recorded in the journal; indicators and tasks are numbered as created. *)
Definition logger_debug (message : string) : M unit := fun w =>
  (Ok tt, record (Debug message) w).

(** Modelled from the spec: [logger.progress()], the factory of progress
    indicators of the absent [Logger]; the new indicator is numbered after
    the ones created before it. *)
Definition logger_progress : M nat := fun w =>
  let p := count is_ProgressNew (journal w) in (Ok p, record (ProgressNew p) w).

(** Modelled from the spec: [progress.add_task(description)] of the absent
    indicator, which returns the handle of the new task. *)
Definition progress_add_task (p : nat) (description : string) : M nat := fun w =>
  let t := count (is_AddTask p) (journal w) in (Ok t, record (AddTask p description t) w).

(** Modelled from the spec: [progress.update(task, completed=...)] of the
    absent indicator. *)
Definition progress_update (p task : nat) (completed : float) : M unit := fun w =>
  (Ok tt, record (Update p task completed) w).

(** Modelled from the spec: [progress.stop()] of the absent indicator. *)
Definition progress_stop (p : nat) : M unit := fun w =>
  (Ok tt, record (Stop p) w).

(** ** The client: [class HTTPClient]

    Reading [response.text] changes the response object (the body is read
    from the stream and kept). The methods that read it return the object
    as they leave it, so that [get] hands to its caller the object that
    the status check has seen. *)

(** [response.text] as a step of a method. *)
Definition response_text (response : Response) : M (string * Response) :=
  lift (Requests.text response).

(** The line that [log_unsuccessful_response] builds from the status code
    and the body part. *)
Definition unsuccessful_line (code : Z) (body : string) : string :=
  "Request was not successful, status code " +:+ str_of_int code +:+ ", " +:+ body.

(** [log_unsuccessful_response(self, response)]: the text is read for the
    test and, when it is not empty, once more for the line. *)
Definition log_unsuccessful_response (response : Response) : M Response :=
  '(t, response) ← response_text response;
  '(body, response) ←
    (if negb (String.eqb t EmptyString)
     then '(t, response) ← response_text response;
          mret ("body:" +:+ Json.newline +:+ t, response)
     else mret ("empty body", response));
  logger_debug (unsuccessful_line (status_code response) body);;
  mret response.

(** [next((kwargs.get(key) for key in keys if key in kwargs), None)] *)
Fixpoint next_present (kwargs : gmap string pyval) (keys : list string) : pyval :=
  match keys with
  | [] => PNone
  | key :: rest =>
      match kwargs !! key with
      | Some v => v
      | None => next_present kwargs rest
      end
  end.

(** The text that [_log_request] hands to the logger. *)
Definition request_message (method url : string) (kwargs : gmap string pyval) : string :=
  let message := "--> " +:+ upper method +:+ " " +:+ url in
  let data := next_present kwargs ["json"; "data"; "params"] in
  if negb (is_None data) && negb (is_empty_dict data)
  then message +:+ " with data:" +:+ Json.newline +:+ Json.dumps data
  else message.

(** [_log_request(self, method, url, **kwargs)] *)
Definition _log_request (method url : string) (kwargs : gmap string pyval) : M unit :=
  logger_debug (request_message method url kwargs).

(** [_check_response(self, response, raise_for_status)] *)
Definition _check_response (response : Response) (raise_for_status : pyval) : M Response :=
  response ← (if (status_code response <? 200) || (300 <=? status_code response)
              then log_unsuccessful_response response
              else mret response);
  (if truthy raise_for_status
   then lift (Requests.raise_for_status response)
   else skip);;
  mret response.

(** [kwargs.pop("raise_for_status", True)]: the value, and what is left. *)
Definition pop_raise_for_status (kwargs : gmap string pyval) : pyval * gmap string pyval :=
  (default (PBool true) (kwargs !! "raise_for_status"), delete "raise_for_status" kwargs).

(** [requests.request(method, url, **kwargs)]; [requests.get] and
    [requests.post] are this call with the method filled in. *)
Definition requests_request (method url : string) (kwargs : gmap string pyval) : M Response :=
  fun w => (transport w method url kwargs, w).

(** [request(self, method, url, **kwargs)] *)
Definition request (method url : string) (kwargs : gmap string pyval) : M Response :=
  _log_request method url kwargs;;
  let '(raise_for_status, kwargs) := pop_raise_for_status kwargs in
  response ← requests_request method url kwargs;
  response ← _check_response response raise_for_status;
  mret response.

(** [get(self, url, **kwargs)] *)
Definition get (url : string) (kwargs : gmap string pyval) : M Response :=
  _log_request "GET" url kwargs;;
  let '(raise_for_status, kwargs) := pop_raise_for_status kwargs in
  response ← requests_request "get" url kwargs;
  response ← _check_response response raise_for_status;
  mret response.

(** [post(self, url, **kwargs)] *)
Definition post (url : string) (kwargs : gmap string pyval) : M Response :=
  _log_request "POST" url kwargs;;
  let '(raise_for_status, kwargs) := pop_raise_for_status kwargs in
  response ← requests_request "post" url kwargs;
  response ← _check_response response raise_for_status;
  mret response.

(** The body of [for chunk in response.iter_content(chunk_size=8192)],
    run over the chunks that the iterator yields; [written_bytes] is
    threaded through and [progress] is the indicator with its task, if
    one was acquired. *)
Fixpoint write_chunks (file : string) (progress : option (nat * nat))
    (total_size_bytes : Z) (written_bytes : Z) (pending : list bytes) : M unit :=
  match pending with
  | [] => skip
  | chunk :: rest =>
      file_write file chunk;;
      match progress with
      | Some (p, task) =>
          let written_bytes := written_bytes + Z.of_nat (length chunk) in
          progress_update p task
            (mul_int (truediv written_bytes total_size_bytes) 100);;
          write_chunks file progress total_size_bytes written_bytes rest
      | None =>
          write_chunks file progress total_size_bytes written_bytes rest
      end
  end.

(** The whole [for] loop: the chunks, then the end of the iterator, which
    is either exhaustion or the exception that interrupts the stream. *)
Definition stream_to_file (file : string) (progress : option (nat * nat))
    (total_size_bytes : Z) (response : Response) : M unit :=
  let '(pending, ending) := Requests.iter_content 8192 response in
  write_chunks file progress total_size_bytes 0 pending;;
  match ending with
  | Some e => raise e
  | None => skip
  end.

Definition stop_if_any (progress : option (nat * nat)) : M unit :=
  match progress with
  | Some (p, _) => progress_stop p
  | None => skip
  end.

(** [download_file(self, url, output_path)] *)
Definition download_file (url output_path : string) : M unit :=
  response ← get url {["stream" := PBool true]};
  total_size_bytes ← lift (py_int (Requests.headers_get response "content-length" (PInt 0)));
  progress ← (if 0 <? total_size_bytes
              then p ← logger_progress;
                   task ← progress_add_task p EmptyString;
                   mret (Some (p, task))
              else mret None);
  try_except_KeyboardInterrupt
    (with_open_wb output_path (fun file =>
       stream_to_file file progress total_size_bytes response))
    (fun e => stop_if_any progress;; raise e);;
  stop_if_any progress.

(** ** Vocabulary of the statements *)

(** A status code outside [200, 300). *)
Definition unsuccessful (r : Response) : bool :=
  (status_code r <? 200) || (300 <=? status_code r).

(** A status code in [400, 600): the codes [requests] raises for. *)
Definition error_status (r : Response) : bool :=
  (400 <=? status_code r) && (status_code r <? 600).

(** The [raise_for_status] option as the three request methods read it. *)
Definition raise_option (kwargs : gmap string pyval) : pyval :=
  default (PBool true) (kwargs !! "raise_for_status").

(** The body of a response: what has been read, or what the stream holds
    up to its end or interruption. *)
Definition body (r : Response) : bytes :=
  match cached r with
  | Some b => b
  | None => concat (chunks r)
  end.

(** The exception in the way of reading the body, if any: none for a body
    that has been read. *)
Definition ending (r : Response) : option exn :=
  match cached r with
  | Some _ => None
  | None => interruption r
  end.

(** The response after its body has been read. *)
Definition consumed (r : Response) : Response :=
  match cached r with
  | Some _ => r
  | None => Requests.with_content (concat (chunks r)) r
  end.

(** The text of the body, as [response.text] gives it once the body can
    be read. *)
Definition body_text (r : Response) : string :=
  match body r with
  | [] => EmptyString
  | _ :: _ => decode r (body r)
  end.

(** The line that [log_unsuccessful_response] logs for [r]. *)
Definition unsuccessful_message (r : Response) : string :=
  unsuccessful_line (status_code r)
    (if negb (String.eqb (body_text r) EmptyString)
     then "body:" +:+ Json.newline +:+ body_text r
     else "empty body").

(** The exception that the status check lets out when it reads the body
    for the log: it reads the body of an unsuccessful response only. *)
Definition read_fails (r : Response) : option exn :=
  if unsuccessful r then ending r else None.

(** The response as the status check leaves it. *)
Definition seen (r : Response) : Response :=
  if unsuccessful r then consumed r else r.

(** The chunks that the loop of [download_file] receives from [r]. *)
Definition pieces (r : Response) : list bytes :=
  fst (Requests.iter_content 8192 r).

(** The journal after the response check: the request line, then the
    unsuccessful-response line when the status is outside [200, 300). *)
Definition checked (line : string) (r : Response) (w : World) : World :=
  let w1 := record (Debug line) w in
  if unsuccessful r then record (Debug (unsuccessful_message r)) w1 else w1.

(** The three request methods share one shape: log under one name, send
    under another, check, return. *)
Definition dispatch (logged sent url : string) (kwargs : gmap string pyval) : M Response :=
  _log_request logged url kwargs;;
  let '(raise_for_status, kwargs) := pop_raise_for_status kwargs in
  response ← requests_request sent url kwargs;
  response ← _check_response response raise_for_status;
  mret response.

(** What [download_file] computes for the total size. *)
Definition content_length (r : Response) : result Z :=
  py_int (Requests.headers_get r "content-length" (PInt 0)).

(** The transport answers the streamed GET of [download_file] with [r]. *)
Definition answers (w : World) (url : string) (r : Response) : Prop :=
  transport w "get" url {["stream" := PBool true]} = Ok r.

(** The completed percentages reported to progress indicators, in order. *)
Definition completions (j : list event) : list float :=
  omap (fun e => match e with Update _ _ c => Some c | _ => None end) j.

(** The [Update] events of the loop of [download_file]. *)
Fixpoint update_events (progress : option (nat * nat))
    (total written : Z) (pending : list bytes) : list event :=
  match progress, pending with
  | Some (p, task), chunk :: rest =>
      let written := written + Z.of_nat (length chunk) in
      Update p task (mul_int (truediv written total) 100)
        :: update_events progress total written rest
  | _, _ => []
  end.

(** The indicator and task that [download_file] acquires on journal [j]. *)
Definition acquired (total : Z) (j : list event) : option (nat * nat) :=
  if 0 <? total
  then Some (count is_ProgressNew j, count (is_AddTask (count is_ProgressNew j)) j)
  else None.

Definition acquire_events (progress : option (nat * nat)) : list event :=
  match progress with
  | Some (p, task) => [ProgressNew p; AddTask p EmptyString task]
  | None => []
  end.

Definition stop_events (progress : option (nat * nat)) : list event :=
  match progress with
  | Some (p, _) => [Stop p]
  | None => []
  end.

(** How the loop over [r] ends: exhausted, cancelled, or broken by
    another error. *)
Definition outcome (r : Response) : result unit :=
  match ending r with
  | None => Ok tt
  | Some e => Raise e
  end.

(** Whether [download_file] reaches a [progress.stop()]. *)
Definition reaches_stop (r : Response) : bool :=
  match ending r with
  | None => true
  | Some e => is_KeyboardInterrupt e
  end.

(** A response whose body has been read, as the transport returns it for
    a request without [stream=True], and a world to run the statements
    on. The body is Latin-1 text. *)
Definition sample_response (code : Z) (text : string) : Response :=
  mkResponse code "Reason" "https://example.org/data" ∅
    string_of_list_byte (Some (list_byte_of_string text)) [] None.

Definition world_answering (r : Response) : World :=
  mkWorld (fun _ _ _ => Ok r) [] ∅ [] ∅.

(** A world whose transport fails with [e] on every request. *)
Definition world_failing (e : exn) : World :=
  mkWorld (fun _ _ _ => Raise e) [] ∅ [] ∅.

(** A world with files on disk and paths that cannot be written. *)
Definition world_with_files (r : Response) (files : gmap string bytes)
    (locked : gset string) : World :=
  mkWorld (fun _ _ _ => Ok r) [] files [] locked.

(** The answer to a streamed GET, its body unread: status, headers, the
    chunks of the stream and its ending. *)
Definition streaming (code : Z) (hs : gmap string string) (cs : list bytes)
    (stream_end : option exn) : Response :=
  mkResponse code "Reason" "https://example.org/data.zip" hs
    string_of_list_byte None cs stream_end.

Definition streamed (hs : gmap string string) (cs : list bytes)
    (stream_end : option exn) : Response :=
  streaming 200 hs cs stream_end.

Definition two_chunks : list bytes :=
  [repeat Byte.x61 512; repeat Byte.x62 512].

(** The outcome of a request method as the specification words it for an
    unsuccessful response with [raise_for_status] absent or true: both
    lines are logged and an [HTTPError] carrying the response is raised. *)
Definition logged_and_raised (out : result Response * World)
    (line : string) (r : Response) (w : World) : Prop :=
  snd out = record (Debug (unsuccessful_message r)) (record (Debug line) w)
  /\ exists message, fst out = Raise (HTTPError message r).

(** The request line without a payload. *)
Definition bare_line (method url : string) : string :=
  "--> " +:+ upper method +:+ " " +:+ url.

(** The request line for a selected option value [v]: the payload is left
    out when [v] is [None] or the empty dict. *)
Definition line_for (method url : string) (v : pyval) : string :=
  if is_None v || is_empty_dict v
  then bare_line method url
  else bare_line method url +:+ " with data:" +:+ Json.newline +:+ Json.dumps v.

(** The selection as the specification words it: the first of the keys
    whose option is present and non-empty. *)
Fixpoint first_present_nonempty (kwargs : gmap string pyval) (keys : list string)
    : option pyval :=
  match keys with
  | [] => None
  | key :: rest =>
      match kwargs !! key with
      | Some v =>
          if is_None v || is_empty_dict v
          then first_present_nonempty kwargs rest
          else Some v
      | None => first_present_nonempty kwargs rest
      end
  end.

(** The request line as the specification words it. *)
Definition claimed_request_message (method url : string)
    (kwargs : gmap string pyval) : string :=
  match first_present_nonempty kwargs ["json"; "data"; "params"] with
  | Some v => bare_line method url +:+ " with data:" +:+ Json.newline +:+ Json.dumps v
  | None => bare_line method url
  end.

(** The option value that [_log_request] looks at. *)
Definition selected (kwargs : gmap string pyval) : pyval :=
  next_present kwargs ["json"; "data"; "params"].

(** A character that no integer literal contains. *)
Definition alien (c : ascii) : bool :=
  negb (is_space c) && negb (is_underscore c)
    && negb (Ascii.eqb c "-") && negb (Ascii.eqb c "+")
    && match digit_of c with Some _ => false | None => true end.

Fixpoint has_alien (s : string) : bool :=
  match s with
  | EmptyString => false
  | String c s' => alien c || has_alien s'
  end.

(** ** Reading a response *)

Lemma bind_run {A B : Type} (m : M A) (f : A -> M B) (w : World) :
  (m ≫= f) w =
    match m w with
    | (Ok a, w') => f a w'
    | (Raise e, w') => (Raise e, w')
    end.
Proof. reflexivity. Qed.

Lemma text_run r :
  Requests.text r =
    match ending r with
    | Some e => Raise e
    | None => Ok (body_text r, consumed r)
    end.
Proof.
  unfold Requests.text, Requests.content, ending, body_text, body, consumed.
  destruct (cached r) as [b|] eqn:Hc; [reflexivity|].
  destruct (interruption r); reflexivity.
Qed.

Lemma consumed_cached r : cached (consumed r) = Some (body r).
Proof.
  unfold consumed, body. destruct (cached r) as [b|] eqn:Hc; [exact Hc | reflexivity].
Qed.

Lemma consumed_ending r : ending (consumed r) = None.
Proof. unfold ending. rewrite consumed_cached. reflexivity. Qed.

Lemma consumed_body r : body (consumed r) = body r.
Proof. unfold body at 1. rewrite consumed_cached. reflexivity. Qed.

Lemma consumed_status r : status_code (consumed r) = status_code r.
Proof. unfold consumed. destruct (cached r); reflexivity. Qed.

Lemma consumed_headers r : headers (consumed r) = headers r.
Proof. unfold consumed. destruct (cached r); reflexivity. Qed.

Lemma consumed_decode r : decode (consumed r) = decode r.
Proof. unfold consumed. destruct (cached r); reflexivity. Qed.

Lemma consumed_body_text r : body_text (consumed r) = body_text r.
Proof. unfold body_text. rewrite consumed_body, consumed_decode. reflexivity. Qed.

Lemma consumed_consumed r : consumed (consumed r) = consumed r.
Proof. unfold consumed at 1. rewrite consumed_cached. reflexivity. Qed.


(** [log_unsuccessful_response]: an unreadable body lets its exception
    out before anything is logged; otherwise one line is logged and the
    response is left with its body read. *)
Lemma log_unsuccessful_response_run r w :
  log_unsuccessful_response r w =
    match ending r with
    | Some e => (Raise e, w)
    | None => (Ok (consumed r), record (Debug (unsuccessful_message r)) w)
    end.
Proof.
  unfold log_unsuccessful_response, response_text, lift. rewrite bind_run, text_run.
  destruct (ending r) as [e|] eqn:He; [reflexivity|]. cbn iota beta.
  rewrite bind_run. unfold unsuccessful_message.
  destruct (negb (String.eqb (body_text r) EmptyString)) eqn:Ht.
  - rewrite bind_run, text_run, consumed_ending. cbn iota beta.
    rewrite consumed_body_text, consumed_consumed.
    unfold mret, M_ret, logger_debug. cbn. rewrite consumed_status. reflexivity.
  - unfold mret, M_ret, logger_debug. cbn. rewrite consumed_status. reflexivity.
Qed.

(** ** Running the request methods *)

Lemma get_dispatch url kwargs : get url kwargs = dispatch "GET" "get" url kwargs.
Proof. reflexivity. Qed.

Lemma post_dispatch url kwargs : post url kwargs = dispatch "POST" "post" url kwargs.
Proof. reflexivity. Qed.

Lemma request_dispatch method url kwargs :
  request method url kwargs = dispatch method method url kwargs.
Proof. reflexivity. Qed.

Lemma seen_status r : status_code (seen r) = status_code r.
Proof. unfold seen. destruct (unsuccessful r); [apply consumed_status | reflexivity]. Qed.

Lemma seen_headers r : headers (seen r) = headers r.
Proof. unfold seen. destruct (unsuccessful r); [apply consumed_headers | reflexivity]. Qed.

Lemma seen_body r : body (seen r) = body r.
Proof. unfold seen. destruct (unsuccessful r); [apply consumed_body | reflexivity]. Qed.

Lemma seen_success r : unsuccessful r = false -> seen r = r.
Proof. unfold seen. intros ->. reflexivity. Qed.

Lemma seen_unsuccessful r : unsuccessful r = true -> seen r = consumed r.
Proof. unfold seen. intros ->. reflexivity. Qed.

Lemma check_response_run r option w :
  _check_response r option w =
    match read_fails r with
    | Some e => (Raise e, w)
    | None =>
        let w' := if unsuccessful r
                  then record (Debug (unsuccessful_message r)) w else w in
        if truthy option then
          match Requests.raise_for_status (seen r) with
          | Ok _ => (Ok (seen r), w')
          | Raise e => (Raise e, w')
          end
        else (Ok (seen r), w')
    end.
Proof.
  unfold _check_response, read_fails, seen, unsuccessful. rewrite bind_run.
  destruct ((status_code r <? 200) || (300 <=? status_code r)).
  - rewrite log_unsuccessful_response_run.
    destruct (ending r) as [e|]; [reflexivity|]. cbn zeta.
    rewrite bind_run. destruct (truthy option).
    + unfold lift. destruct (Requests.raise_for_status (consumed r)); reflexivity.
    + reflexivity.
  - unfold mret at 1, M_ret at 1. cbn zeta.
    rewrite bind_run. destruct (truthy option).
    + unfold lift. destruct (Requests.raise_for_status r); reflexivity.
    + reflexivity.
Qed.

Lemma dispatch_run logged sent url kwargs w :
  dispatch logged sent url kwargs w =
    match transport w sent url (delete "raise_for_status" kwargs) with
    | Raise e => (Raise e, record (Debug (request_message logged url kwargs)) w)
    | Ok r =>
        match read_fails r with
        | Some e => (Raise e, record (Debug (request_message logged url kwargs)) w)
        | None =>
            let w' := checked (request_message logged url kwargs) r w in
            if truthy (raise_option kwargs) then
              match Requests.raise_for_status (seen r) with
              | Ok _ => (Ok (seen r), w')
              | Raise e => (Raise e, w')
              end
            else (Ok (seen r), w')
        end
    end.
Proof.
  unfold dispatch, _log_request, pop_raise_for_status, requests_request, logger_debug.
  rewrite bind_run. cbn iota beta. rewrite bind_run. cbn [transport record].
  destruct (transport w sent url _) as [r|e]; [|reflexivity].
  rewrite bind_run, check_response_run. unfold checked, raise_option.
  destruct (read_fails r) as [e|]; [reflexivity|]. cbn zeta.
  destruct (truthy _); [|reflexivity].
  destruct (Requests.raise_for_status (seen r)); reflexivity.
Qed.

Lemma raise_for_status_error r :
  error_status r = true ->
  exists message, Requests.raise_for_status r = Raise (HTTPError message r).
Proof.
  unfold error_status, Requests.raise_for_status. intros H.
  apply andb_true_iff in H as [H4 H6].
  rewrite H4. cbn.
  destruct (status_code r <? 500) eqn:H5; [eauto|].
  assert ((500 <=? status_code r) = true) as -> by lia.
  rewrite H6. cbn. eauto.
Qed.

Lemma raise_for_status_pass r :
  error_status r = false -> Requests.raise_for_status r = Ok tt.
Proof.
  unfold error_status, Requests.raise_for_status. intros H.
  destruct (400 <=? status_code r) eqn:H4; cbn in *.
  - rewrite H. assert ((status_code r <? 500) = false) as -> by lia.
    rewrite andb_false_r. reflexivity.
  - assert ((500 <=? status_code r) = false) as -> by lia. reflexivity.
Qed.

Lemma seen_error_status r : error_status (seen r) = error_status r.
Proof. unfold error_status. rewrite seen_status. reflexivity. Qed.

Lemma success_not_error r :
  unsuccessful r = false -> error_status r = false.
Proof. unfold unsuccessful, error_status. lia. Qed.

Lemma error_status_unsuccessful r : error_status r = true -> unsuccessful r = true.
Proof. unfold unsuccessful, error_status. lia. Qed.

Lemma unsuccessful_outside r :
  status_code r < 200 \/ 300 <= status_code r -> unsuccessful r = true.
Proof. unfold unsuccessful. lia. Qed.

Lemma unsuccessful_inside r :
  200 <= status_code r < 300 -> unsuccessful r = false.
Proof. unfold unsuccessful. lia. Qed.

Lemma read_fails_success r : unsuccessful r = false -> read_fails r = None.
Proof. unfold read_fails. intros ->. reflexivity. Qed.

Lemma read_fails_unsuccessful r : unsuccessful r = true -> read_fails r = ending r.
Proof. unfold read_fails. intros ->. reflexivity. Qed.

(** ** Status checking: [get], [post], [request] *)

(** The outcome of a request method on an unsuccessful response that is
    not raised for: both lines are logged and the response is returned
    with its body read. *)
Lemma dispatch_unraised logged sent url kwargs w r :
  unsuccessful r = true ->
  error_status r = false ->
  ending r = None ->
  transport w sent url (delete "raise_for_status" kwargs) = Ok r ->
  dispatch logged sent url kwargs w =
    (Ok (consumed r),
     record (Debug (unsuccessful_message r))
       (record (Debug (request_message logged url kwargs)) w)).
Proof.
  intros Hu He Hend Hs. rewrite dispatch_run, Hs.
  rewrite (read_fails_unsuccessful r Hu), Hend. cbn zeta.
  unfold checked. rewrite Hu, (seen_unsuccessful r Hu).
  rewrite raise_for_status_pass
    by (rewrite <- (seen_unsuccessful r Hu), seen_error_status; exact He).
  destruct (truthy _); reflexivity.
Qed.

(** C1 (the code at the failing inputs): for a response whose status code
    is outside [200, 300) but not in [400, 600), a 304 or a 1xx say, whose
    body can be read, and with the [raise_for_status] option absent or
    true, [get], [post] and [request] log the response as not successful
    and then return it: no error is raised, although the docstrings of the
    three methods promise one for an unsuccessful response. *)
Theorem unsuccessful_unraised_returned
    (w : World) (method url : string) (kwargs : gmap string pyval) (r : Response) :
  status_code r < 200 \/ 300 <= status_code r ->
  error_status r = false ->
  ending r = None ->
  kwargs !! "raise_for_status" = None \/ kwargs !! "raise_for_status" = Some (PBool true) ->
  (transport w "get" url (delete "raise_for_status" kwargs) = Ok r ->
   get url kwargs w =
     (Ok (consumed r), record (Debug (unsuccessful_message r))
                         (record (Debug (request_message "GET" url kwargs)) w)))
  /\ (transport w "post" url (delete "raise_for_status" kwargs) = Ok r ->
      post url kwargs w =
        (Ok (consumed r), record (Debug (unsuccessful_message r))
                            (record (Debug (request_message "POST" url kwargs)) w)))
  /\ (transport w method url (delete "raise_for_status" kwargs) = Ok r ->
      request method url kwargs w =
        (Ok (consumed r), record (Debug (unsuccessful_message r))
                            (record (Debug (request_message method url kwargs)) w))).
Proof.
  intros Hout He Hend _.
  pose proof (unsuccessful_outside r Hout) as Hu.
  rewrite get_dispatch, post_dispatch, request_dispatch.
  split; [|split]; intros Hs; apply dispatch_unraised; assumption.
Qed.

Lemma unsuccessful_unraised_returned_witness :
  let r := sample_response 304 EmptyString in
  let w := world_answering r in
  get "https://example.org/data" ∅ w =
    (Ok r, record (Debug "Request was not successful, status code 304, empty body")
             (record (Debug "--> GET https://example.org/data") w))
  /\ ~ logged_and_raised (get "https://example.org/data" ∅ w)
         "--> GET https://example.org/data" r w.
Proof.
  intros r w.
  assert (status_code r < 200 \/ 300 <= status_code r) as Hout
    by (right; vm_compute; discriminate).
  assert ((∅ : gmap string pyval) !! "raise_for_status" = None
          \/ (∅ : gmap string pyval) !! "raise_for_status" = Some (PBool true)) as Hopt
    by (left; reflexivity).
  pose proof (proj1 (unsuccessful_unraised_returned w "get" "https://example.org/data"
                       ∅ r Hout eq_refl eq_refl Hopt) eq_refl) as Hrun.
  split; [exact Hrun|].
  intros [_ [message Hraised]]. rewrite Hrun in Hraised. discriminate.
Defined.




(** C4: for a response whose status code lies in [200, 300), [get], [post]
    and [request] add the request line to the journal and nothing else (no
    unsuccessful-response line), raise nothing and return the response,
    whatever the [raise_for_status] option holds. *)
Theorem success_not_logged_not_raised
    (w : World) (method url : string) (kwargs : gmap string pyval) (r : Response) :
  200 <= status_code r < 300 ->
  (transport w "get" url (delete "raise_for_status" kwargs) = Ok r ->
   get url kwargs w = (Ok r, record (Debug (request_message "GET" url kwargs)) w))
  /\ (transport w "post" url (delete "raise_for_status" kwargs) = Ok r ->
      post url kwargs w = (Ok r, record (Debug (request_message "POST" url kwargs)) w))
  /\ (transport w method url (delete "raise_for_status" kwargs) = Ok r ->
      request method url kwargs w =
        (Ok r, record (Debug (request_message method url kwargs)) w)).
Proof.
  intros Hin.
  pose proof (unsuccessful_inside r Hin) as Hu.
  pose proof (raise_for_status_pass r (success_not_error r Hu)) as Hp.
  rewrite get_dispatch, post_dispatch, request_dispatch.
  split; [|split]; intros Hs; rewrite dispatch_run, Hs;
    rewrite (read_fails_success r Hu); cbn zeta;
    unfold checked; rewrite Hu, (seen_success r Hu), Hp; destruct (truthy _); reflexivity.
Qed.

Lemma success_not_logged_not_raised_witness :
  let r := sample_response 204 EmptyString in
  let w := world_answering r in
  (get "https://example.org/data" ∅ w =
     (Ok r, record (Debug "--> GET https://example.org/data") w)
   /\ get "https://example.org/data" {["raise_for_status" := PBool false]} w =
        (Ok r, record (Debug "--> GET https://example.org/data") w))
  /\ post "https://example.org/data" {["raise_for_status" := PBool true]} w =
       (Ok r, record (Debug "--> POST https://example.org/data") w)
  /\ request "patch" "https://example.org/data" ∅ w =
       (Ok r, record (Debug "--> PATCH https://example.org/data") w).
Proof.
  intros r w.
  assert (200 <= status_code r < 300) as Hin
    by (vm_compute; split; [discriminate | reflexivity]).
  destruct (success_not_logged_not_raised w "patch" "https://example.org/data" ∅ r Hin)
    as (Hg & _ & Hr).
  destruct (success_not_logged_not_raised w "patch" "https://example.org/data"
              {["raise_for_status" := PBool false]} r Hin) as (Hg' & _ & _).
  destruct (success_not_logged_not_raised w "patch" "https://example.org/data"
              {["raise_for_status" := PBool true]} r Hin) as (_ & Hp & _).
  split; [split; [exact (Hg eq_refl) | exact (Hg' eq_refl)] |].
  split; [exact (Hp eq_refl) | exact (Hr eq_refl)].
Defined.

(** ** [log_unsuccessful_response] *)

(** C9: for a response whose body text reads as the empty string,
    [log_unsuccessful_response] emits one debug line that names the status
    code and ends with the marker ["empty body"]; for a response whose
    body text reads as a non-empty string, the line names the status code
    and ends with ["body:"], a newline and that text. The response is left
    as the reading of its text leaves it. *)
Theorem unsuccessful_response_line
    (r r' : Response) (t : string) (w : World) :
  Requests.text r = Ok (t, r') ->
  (t = EmptyString ->
   log_unsuccessful_response r w =
     (Ok r', record (Debug ("Request was not successful, status code "
                              +:+ str_of_int (status_code r) +:+ ", empty body")) w))
  /\ (t <> EmptyString ->
      log_unsuccessful_response r w =
        (Ok r', record (Debug ("Request was not successful, status code "
                                 +:+ str_of_int (status_code r) +:+ ", body:"
                                 +:+ Json.newline +:+ t)) w)).
Proof.
  rewrite text_run, log_unsuccessful_response_run.
  destruct (ending r) as [e|]; [discriminate|].
  intros H. injection H as <- <-.
  unfold unsuccessful_message, unsuccessful_line.
  split; intros Ht.
  - rewrite Ht. reflexivity.
  - destruct (String.eqb_spec (body_text r) EmptyString) as [E|_]; [contradiction|].
    reflexivity.
Qed.

Lemma unsuccessful_response_line_witness :
  let empty := sample_response 502 EmptyString in
  let unread := streaming 404 ∅ [[Byte.x67; Byte.x6f]; [Byte.x6e; Byte.x65]] None in
  log_unsuccessful_response empty (world_answering empty) =
    (Ok empty,
     record (Debug "Request was not successful, status code 502, empty body")
       (world_answering empty))
  /\ log_unsuccessful_response unread (world_answering unread) =
       (Ok (Requests.with_content [Byte.x67; Byte.x6f; Byte.x6e; Byte.x65] unread),
        record (Debug ("Request was not successful, status code 404, body:"
                         +:+ Json.newline +:+ "gone"))
          (world_answering unread)).
Proof.
  intros empty unread. split.
  - exact (proj1 (unsuccessful_response_line empty empty EmptyString
                    (world_answering empty) eq_refl) eq_refl).
  - refine (proj2 (unsuccessful_response_line unread
                     (Requests.with_content [Byte.x67; Byte.x6f; Byte.x6e; Byte.x65] unread)
                     "gone" (world_answering unread) eq_refl) _).
    discriminate.
Defined.

(** ** [_log_request] *)

(** C5 (as amended): the request line is ["--> METHOD URL"] with the method
    upper-cased. The option consulted is the first of [json], [data],
    [params] that is present in the options, whatever its value; the
    payload part, [" with data:"], a newline and the 4-space-indented JSON
    of that value, follows unless the value is [None] or the empty dict.
    With none of the three present there is no payload part. *)
Theorem request_line_first_present
    (method url : string) (kwargs : gmap string pyval) (w : World) :
  _log_request method url kwargs w =
    (Ok tt, record (Debug (request_message method url kwargs)) w)
  /\ request_message method url kwargs =
       match kwargs !! "json", kwargs !! "data", kwargs !! "params" with
       | Some v, _, _ => line_for method url v
       | None, Some v, _ => line_for method url v
       | None, None, Some v => line_for method url v
       | None, None, None => bare_line method url
       end.
Proof.
  split; [reflexivity|].
  unfold request_message, line_for, bare_line. cbn [next_present].
  destruct (kwargs !! "json") as [v|];
    [|destruct (kwargs !! "data") as [v|];
      [|destruct (kwargs !! "params") as [v|]; [|reflexivity]]];
    destruct v as [| | | | [|] | [|]]; reflexivity.
Qed.

(** C5 as the specification states it fails: with [json={}] and
    [data={"a": 1}] the specification logs the form data, the first option
    that is present and non-empty; the code stops at [json], finds it
    empty, and logs the bare line. *)
Lemma request_line_counterexample :
  let kwargs : gmap string pyval :=
    {["json" := PDict []; "data" := PDict [("a", PInt 1)]]} in
  let w := world_answering (sample_response 200 EmptyString) in
  journal (snd (_log_request "get" "https://example.org/data" kwargs w)) =
    [Debug "--> GET https://example.org/data"]
  /\ claimed_request_message "get" "https://example.org/data" kwargs <>
       request_message "get" "https://example.org/data" kwargs.
Proof.
  intros kwargs w. split.
  - vm_compute. reflexivity.
  - vm_compute. discriminate.
Qed.

(** The example of the specification: [get(url, json={"a": 1})]. *)
Example request_line_json_example :
  request_message "GET" "https://example.org/data" {["json" := PDict [("a", PInt 1)]]} =
    "--> GET https://example.org/data with data:" +:+ Json.newline
      +:+ "{" +:+ Json.newline
      +:+ "    " +:+ String Json.dquote ("a" +:+ String Json.dquote ": 1") +:+ Json.newline
      +:+ "}".
Proof. vm_compute. reflexivity. Qed.

(** Where the two selections agree: when no option that is present among
    the three is [None] or the empty dict, the code logs the line of the
    specification. *)
Lemma request_message_as_claimed (method url : string) (kwargs : gmap string pyval) :
  (forall key v, key ∈ ["json"; "data"; "params"] -> kwargs !! key = Some v ->
                 is_None v || is_empty_dict v = false) ->
  request_message method url kwargs = claimed_request_message method url kwargs.
Proof.
  intros Hne. unfold request_message, claimed_request_message, bare_line.
  cbn [next_present first_present_nonempty].
  destruct (kwargs !! "json") as [v|] eqn:Hj.
  { assert (is_None v || is_empty_dict v = false) as Hv
      by (apply (Hne "json"); [set_solver | assumption]).
    rewrite Hv. apply orb_false_iff in Hv as [-> ->]. reflexivity. }
  destruct (kwargs !! "data") as [v|] eqn:Hd.
  { assert (is_None v || is_empty_dict v = false) as Hv
      by (apply (Hne "data"); [set_solver | assumption]).
    rewrite Hv. apply orb_false_iff in Hv as [-> ->]. reflexivity. }
  destruct (kwargs !! "params") as [v|] eqn:Hp.
  { assert (is_None v || is_empty_dict v = false) as Hv
      by (apply (Hne "params"); [set_solver | assumption]).
    rewrite Hv. apply orb_false_iff in Hv as [-> ->]. reflexivity. }
  reflexivity.
Qed.


(** ** Running [download_file] *)

Lemma count_app (f : event -> bool) (j1 j2 : list event) :
  count f (j1 ++ j2) = (count f j1 + count f j2)%nat.
Proof. unfold count. rewrite List.filter_app, length_app. reflexivity. Qed.

Lemma completions_app (j1 j2 : list event) :
  completions (j1 ++ j2) = completions j1 ++ completions j2.
Proof. apply omap_app. Qed.

Lemma world_eta (w : World) :
  mkWorld (transport w) (journal w) (disk w) (opened w) (denied w) = w.
Proof. destruct w. reflexivity. Qed.

Lemma stream_request_message url :
  request_message "GET" url {["stream" := PBool true]} = "--> GET " +:+ url.
Proof.
  unfold request_message. cbn [next_present].
  rewrite !lookup_singleton_ne by discriminate. reflexivity.
Qed.

Lemma stream_raise_option :
  truthy (raise_option {["stream" := PBool true]}) = true.
Proof. reflexivity. Qed.

(** The streamed GET of [download_file], when the transport answers with a
    response that the status check can read and lets through. *)
Lemma get_stream url w r :
  answers w url r ->
  read_fails r = None ->
  error_status r = false ->
  get url {["stream" := PBool true]} w = (Ok (seen r), checked ("--> GET " +:+ url) r w).
Proof.
  unfold answers. intros Ha Hr He.
  rewrite get_dispatch, dispatch_run.
  rewrite delete_singleton_ne by discriminate.
  rewrite Ha, Hr. cbn zeta.
  rewrite stream_request_message, raise_for_status_pass
    by (rewrite seen_error_status; exact He).
  destruct (truthy _); reflexivity.
Qed.

(** Slices of a positive length put the body back together. *)
Lemma iter_slices_upto_concat bound : forall n b,
  (0 < n)%nat -> (length b <= bound)%nat ->
  concat (Requests.iter_slices_upto bound n b) = b.
Proof.
  induction bound as [|bound IH]; intros n b Hn Hb.
  - destruct b; [reflexivity | cbn in Hb; lia].
  - destruct b as [|x b]; [reflexivity|].
    cbn [Requests.iter_slices_upto concat].
    rewrite IH; [apply take_drop | exact Hn |].
    rewrite length_drop. cbn [length] in *. lia.
Qed.

Lemma iter_content_run r :
  Requests.iter_content 8192 r = (pieces r, ending r).
Proof.
  unfold pieces, ending, Requests.iter_content. destruct (cached r); reflexivity.
Qed.

Lemma pieces_concat r : concat (pieces r) = body r.
Proof.
  unfold pieces, body, Requests.iter_content. destruct (cached r) as [b|]; [|reflexivity].
  cbn [fst]. unfold Requests.iter_slices.
  apply iter_slices_upto_concat; lia.
Qed.

Lemma pieces_unread r : cached r = None -> pieces r = chunks r.
Proof. unfold pieces, Requests.iter_content. intros ->. reflexivity. Qed.

Lemma pieces_consumed r : pieces (consumed r) = Requests.iter_slices 8192 (body r).
Proof.
  unfold pieces, Requests.iter_content. rewrite consumed_cached. reflexivity.
Qed.

Lemma update_events_None total written pending :
  update_events None total written pending = [].
Proof. destruct pending; reflexivity. Qed.

Lemma write_chunks_run pending : forall file progress total written w old,
  disk w !! file = Some old ->
  write_chunks file progress total written pending w =
    (Ok tt,
     mkWorld (transport w)
       (journal w ++ update_events progress total written pending)
       (<[file := old ++ concat pending]> (disk w))
       (opened w) (denied w)).
Proof.
  induction pending as [|chunk rest IH]; intros file progress total written w old Hold.
  - cbn [write_chunks concat]. unfold skip, mret, M_ret.
    assert (update_events progress total written [] = []) as ->
      by (destruct progress as [[p task]|]; reflexivity).
    rewrite !app_nil_r, (insert_id (disk w) file old Hold), world_eta. reflexivity.
  - cbn [write_chunks concat]. rewrite bind_run. unfold file_write. rewrite Hold.
    cbn [default].
    destruct progress as [[p task]|].
    + rewrite bind_run. unfold progress_update.
      rewrite (IH file (Some (p, task)) total _ _ (old ++ chunk)).
      * cbn. rewrite insert_insert_eq, <- !app_assoc. reflexivity.
      * cbn. apply lookup_insert_eq.
    + rewrite (IH file None total _ _ (old ++ chunk)).
      * cbn. rewrite !update_events_None, insert_insert_eq, <- !app_assoc. reflexivity.
      * cbn. apply lookup_insert_eq.
Qed.

Lemma filter_closed (path : string) (l : list string) :
  filter (fun p => p ≠ path) (path :: l) = filter (fun p => p ≠ path) l.
Proof. rewrite filter_cons_False; [reflexivity | intros H; apply H; reflexivity]. Qed.

(** The [with] statement of [download_file]: the file is opened, the
    chunks are written to it, and the handle is closed on the way out. *)
Lemma with_open_stream_run path progress total r w :
  path ∉ denied w ->
  with_open_wb path (fun file => stream_to_file file progress total r) w =
    (outcome r,
     mkWorld (transport w)
       (journal w ++ update_events progress total 0 (pieces r))
       (<[path := body r]> (disk w))
       (filter (fun p => p ≠ path) (opened w))
       (denied w)).
Proof.
  intros Hd. unfold with_open_wb, open_wb.
  destruct (decide (path ∈ denied w)) as [Hin|_]; [contradiction|].
  unfold stream_to_file. rewrite iter_content_run. rewrite bind_run.
  rewrite (write_chunks_run (pieces r) path progress total 0 _ []);
    [|apply lookup_insert_eq].
  cbn [transport journal disk opened denied with_opened with_disk].
  rewrite insert_insert_eq, pieces_concat. unfold outcome, file_close, with_opened.
  destruct (ending r) as [e|]; unfold raise, skip, mret, M_ret;
    cbn -[filter]; rewrite filter_closed; reflexivity.
Qed.

(** The [try] statement around it. *)
Lemma try_stream_run path progress total r w :
  path ∉ denied w ->
  try_except_KeyboardInterrupt
    (with_open_wb path (fun file => stream_to_file file progress total r))
    (fun e => stop_if_any progress;; raise e) w =
    (outcome r,
     mkWorld (transport w)
       (journal w ++ update_events progress total 0 (pieces r)
          ++ (match ending r with
              | Some e => if is_KeyboardInterrupt e then stop_events progress else []
              | None => []
              end))
       (<[path := body r]> (disk w))
       (filter (fun p => p ≠ path) (opened w))
       (denied w)).
Proof.
  intros Hd. unfold try_except_KeyboardInterrupt.
  rewrite (with_open_stream_run path progress total r w Hd).
  unfold outcome. destruct (ending r) as [e|].
  - destruct (is_KeyboardInterrupt e).
    + rewrite bind_run. destruct progress as [[p task]|];
        unfold stop_if_any, progress_stop, skip, mret, M_ret, raise, record;
        cbn -[filter]; rewrite <- ?app_assoc, ?app_nil_r; reflexivity.
    + rewrite !app_nil_r. reflexivity.
  - rewrite !app_nil_r. reflexivity.
Qed.

Lemma checked_frame line r w :
  transport (checked line r w) = transport w
  /\ disk (checked line r w) = disk w
  /\ opened (checked line r w) = opened w
  /\ denied (checked line r w) = denied w.
Proof. unfold checked. destruct (unsuccessful r); auto. Qed.

Lemma content_length_seen r : content_length (seen r) = content_length r.
Proof.
  unfold content_length, Requests.headers_get. rewrite seen_headers. reflexivity.
Qed.

(** [download_file] after a GET that returned [r'], from the parsing of
    the content-length to the end, for a content-length that [int]
    accepts and a path that can be opened. *)
Lemma download_after_get r' total path w1 :
  content_length r' = Ok total ->
  path ∉ denied w1 ->
  (total_size_bytes ← lift (py_int (Requests.headers_get r' "content-length" (PInt 0)));
   progress ← (if 0 <? total_size_bytes
               then p ← logger_progress;
                    task ← progress_add_task p EmptyString;
                    mret (Some (p, task))
               else mret None);
   try_except_KeyboardInterrupt
     (with_open_wb path (fun file =>
        stream_to_file file progress total_size_bytes r'))
     (fun e => stop_if_any progress;; raise e);;
   stop_if_any progress) w1 =
    (outcome r',
     mkWorld (transport w1)
       (journal w1 ++ acquire_events (acquired total (journal w1))
          ++ update_events (acquired total (journal w1)) total 0 (pieces r')
          ++ (if reaches_stop r' then stop_events (acquired total (journal w1)) else []))
       (<[path := body r']> (disk w1))
       (filter (fun p => p ≠ path) (opened w1))
       (denied w1)).
Proof.
  intros Hc Hd.
  rewrite bind_run. unfold lift. unfold content_length in Hc. rewrite Hc.
  unfold acquired, reaches_stop, outcome.
  rewrite bind_run. destruct (0 <? total).
  - rewrite bind_run. unfold logger_progress. rewrite bind_run.
    unfold progress_add_task. unfold mret, M_ret. rewrite bind_run.
    rewrite try_stream_run by exact Hd.
    cbn [journal record transport disk opened denied].
    rewrite count_app. cbn [count List.filter is_AddTask length]. rewrite Nat.add_0_r.
    unfold outcome, stop_if_any, progress_stop, record.
    destruct (ending r') as [e|]; [destruct (is_KeyboardInterrupt e)|];
      cbn -[filter]; rewrite <- ?app_assoc; reflexivity.
  - unfold mret, M_ret. rewrite bind_run.
    rewrite try_stream_run by exact Hd.
    rewrite !update_events_None.
    unfold outcome, stop_if_any, skip, mret, M_ret.
    destruct (ending r') as [e|]; [destruct (is_KeyboardInterrupt e)|];
      cbn -[filter]; rewrite ?app_nil_r; reflexivity.
Qed.

(** [download_file] from the answer of the transport to the end, for a
    response that the status check can read and lets through, a
    content-length that [int] accepts and a path that can be opened. The
    loop runs over the response as the status check left it. *)
Lemma download_file_run url path w r total :
  answers w url r ->
  read_fails r = None ->
  error_status r = false ->
  content_length r = Ok total ->
  path ∉ denied w ->
  download_file url path w =
    let j := journal (checked ("--> GET " +:+ url) r w) in
    let progress := acquired total j in
    (outcome (seen r),
     mkWorld (transport w)
       (j ++ acquire_events progress
          ++ update_events progress total 0 (pieces (seen r))
          ++ (if reaches_stop (seen r) then stop_events progress else []))
       (<[path := body r]> (disk w))
       (filter (fun p => p ≠ path) (opened w))
       (denied w)).
Proof.
  intros Ha Hr He Hc Hd. unfold download_file.
  rewrite bind_run, (get_stream url w r Ha Hr He).
  destruct (checked_frame ("--> GET " +:+ url) r w) as (Et & Ed & Eo & En).
  rewrite download_after_get with (total := total);
    [| rewrite content_length_seen; exact Hc | rewrite En; exact Hd].
  cbn zeta. rewrite Et, Ed, Eo, En, seen_body. reflexivity.
Qed.

Lemma checked_journal line r w :
  journal (checked line r w) =
    journal w ++ Debug line
      :: (if unsuccessful r then [Debug (unsuccessful_message r)] else []).
Proof.
  unfold checked. destruct (unsuccessful r); cbn; rewrite <- ?app_assoc; reflexivity.
Qed.

Lemma count_checked f line r w :
  (forall message, f (Debug message) = false) ->
  count f (journal (checked line r w)) = count f (journal w).
Proof.
  intros Hf. rewrite checked_journal, count_app.
  unfold count at 2. destruct (unsuccessful r); cbn; rewrite !Hf; cbn; lia.
Qed.

Lemma count_update_events f progress total written pending :
  (forall p task c, f (Update p task c) = false) ->
  count f (update_events progress total written pending) = 0%nat.
Proof.
  intros Hf. destruct progress as [[p task]|]; [|rewrite update_events_None; reflexivity].
  revert written. induction pending as [|chunk rest IH]; intros written; [reflexivity|].
  cbn [update_events]. unfold count in *. cbn [List.filter]. rewrite Hf. apply IH.
Qed.

Lemma completions_checked line r w :
  completions (journal (checked line r w)) = completions (journal w).
Proof.
  rewrite checked_journal, completions_app.
  destruct (unsuccessful r); cbn; rewrite app_nil_r; reflexivity.
Qed.

Lemma completions_update_events_length p task total written pending :
  length (completions (update_events (Some (p, task)) total written pending)) =
    length pending.
Proof.
  revert written. induction pending as [|chunk rest IH]; intros written; [reflexivity|].
  cbn [update_events]. unfold completions in *. cbn. rewrite IH. reflexivity.
Qed.

Lemma content_length_missing r :
  headers r !! "content-length" = None -> content_length r = Ok 0.
Proof.
  intros H. unfold content_length, Requests.headers_get.
  change (lower "content-length") with "content-length". rewrite H. reflexivity.
Qed.

Lemma content_length_present r v :
  headers r !! "content-length" = Some v ->
  content_length r =
    match int_of_str v with Some n => Ok n | None => Raise (ValueError v) end.
Proof.
  intros H. unfold content_length, Requests.headers_get.
  change (lower "content-length") with "content-length". rewrite H. reflexivity.
Qed.

Lemma content_length_cases r :
  (exists total, content_length r = Ok total)
  \/ (exists v, content_length r = Raise (ValueError v)).
Proof.
  destruct (headers r !! "content-length") as [v|] eqn:H.
  - rewrite (content_length_present r v H).
    destruct (int_of_str v); eauto.
  - rewrite (content_length_missing r H). eauto.
Qed.

Lemma ending_unread r e :
  ending r = Some e -> cached r = None /\ interruption r = Some e.
Proof. unfold ending. destruct (cached r); [discriminate | auto]. Qed.

Lemma body_unread r : cached r = None -> body r = concat (chunks r).
Proof. unfold body. intros ->. reflexivity. Qed.

Lemma seen_ending_success r : unsuccessful r = false -> ending (seen r) = ending r.
Proof. intros H. rewrite (seen_success r H). reflexivity. Qed.

Lemma seen_ending_unsuccessful r : unsuccessful r = true -> ending (seen r) = None.
Proof. intros H. rewrite (seen_unsuccessful r H). apply consumed_ending. Qed.

(** When the status check can read the body, the loop ends as the body
    does. *)
Lemma seen_ending r : read_fails r = None -> ending (seen r) = ending r.
Proof.
  unfold read_fails. destruct (unsuccessful r) eqn:Hu; intros H.
  - rewrite (seen_ending_unsuccessful r Hu), H. reflexivity.
  - apply seen_ending_success; exact Hu.
Qed.

(** *** The ways [download_file] fails before the loop *)

Lemma download_transport_raises url path w e :
  transport w "get" url {["stream" := PBool true]} = Raise e ->
  download_file url path w = (Raise e, record (Debug ("--> GET " +:+ url)) w).
Proof.
  intros H. unfold download_file.
  rewrite bind_run, get_dispatch, dispatch_run.
  rewrite delete_singleton_ne by discriminate.
  rewrite H, stream_request_message. reflexivity.
Qed.

(** The status check reads the body of an unsuccessful response for the
    log; when that read fails, its exception leaves [download_file] with
    the request line logged and nothing else done. *)
Lemma download_read_fails url path w r e :
  answers w url r ->
  read_fails r = Some e ->
  download_file url path w = (Raise e, record (Debug ("--> GET " +:+ url)) w).
Proof.
  unfold answers. intros Ha Hr. unfold download_file.
  rewrite bind_run, get_dispatch, dispatch_run.
  rewrite delete_singleton_ne by discriminate.
  rewrite Ha, Hr, stream_request_message. reflexivity.
Qed.

Lemma download_error_status url path w r :
  answers w url r ->
  read_fails r = None ->
  error_status r = true ->
  exists message,
    download_file url path w =
      (Raise (HTTPError message (consumed r)), checked ("--> GET " +:+ url) r w).
Proof.
  unfold answers. intros Ha Hr He.
  pose proof (error_status_unsuccessful r He) as Hu.
  assert (error_status (consumed r) = true) as He'
    by (rewrite <- (seen_unsuccessful r Hu), seen_error_status; exact He).
  destruct (raise_for_status_error (consumed r) He') as [message Hm]. exists message.
  unfold download_file.
  rewrite bind_run, get_dispatch, dispatch_run.
  rewrite delete_singleton_ne by discriminate.
  rewrite Ha, Hr, stream_request_message. cbn zeta.
  rewrite stream_raise_option, (seen_unsuccessful r Hu), Hm. reflexivity.
Qed.

Lemma download_length_raises url path w r e :
  answers w url r ->
  read_fails r = None ->
  error_status r = false ->
  content_length r = Raise e ->
  download_file url path w = (Raise e, checked ("--> GET " +:+ url) r w).
Proof.
  intros Ha Hr He Hc. unfold download_file.
  rewrite bind_run, (get_stream url w r Ha Hr He).
  rewrite bind_run. unfold lift.
  rewrite <- content_length_seen in Hc. unfold content_length in Hc. rewrite Hc.
  reflexivity.
Qed.

(** [download_file] when the output path cannot be opened: the error of
    [open] leaves after the indicator, if any, has been acquired. *)
Lemma download_open_fails url path w r total :
  answers w url r ->
  read_fails r = None ->
  error_status r = false ->
  content_length r = Ok total ->
  path ∈ denied w ->
  download_file url path w =
    let j := journal (checked ("--> GET " +:+ url) r w) in
    (Raise (OtherError "PermissionError"),
     mkWorld (transport w) (j ++ acquire_events (acquired total j))
       (disk w) (opened w) (denied w)).
Proof.
  intros Ha Hr He Hc Hd. unfold download_file.
  rewrite bind_run, (get_stream url w r Ha Hr He).
  rewrite bind_run. unfold lift.
  rewrite <- content_length_seen in Hc. unfold content_length in Hc. rewrite Hc.
  destruct (checked_frame ("--> GET " +:+ url) r w) as (Et & Ed & Eo & En).
  set (w1 := checked ("--> GET " +:+ url) r w) in *.
  cbn zeta. rewrite <- Et, <- Ed, <- Eo, <- En. rewrite <- En in Hd.
  clearbody w1. clear Et Ed Eo En Ha.
  unfold acquired. rewrite bind_run. destruct (0 <? total).
  - rewrite bind_run. unfold logger_progress. rewrite bind_run.
    unfold progress_add_task, mret, M_ret. rewrite bind_run.
    unfold try_except_KeyboardInterrupt, with_open_wb, open_wb.
    cbn [denied record].
    destruct (decide (path ∈ denied w1)) as [_|Hn]; [|contradiction].
    cbn [is_KeyboardInterrupt journal record transport disk opened denied].
    rewrite count_app. cbn [count List.filter is_AddTask length]. rewrite Nat.add_0_r.
    cbn [acquire_events]. unfold record. cbn [journal transport disk opened denied].
    rewrite <- app_assoc. reflexivity.
  - unfold mret, M_ret. rewrite bind_run.
    unfold try_except_KeyboardInterrupt, with_open_wb, open_wb.
    destruct (decide (path ∈ denied w1)) as [_|Hn]; [|contradiction].
    cbn [is_KeyboardInterrupt acquire_events]. rewrite app_nil_r, world_eta. reflexivity.
Qed.

(** *** What [int] rejects *)

Lemma alien_facts c :
  alien c = true ->
  is_space c = false /\ is_underscore c = false /\ Ascii.eqb c "-" = false
  /\ Ascii.eqb c "+" = false /\ digit_of c = None.
Proof.
  unfold alien. intros H.
  repeat (apply andb_true_iff in H as [H ?]).
  destruct (digit_of c); [discriminate|].
  repeat match goal with
         | X : negb _ = true |- _ => apply negb_true_iff in X
         end.
  auto.
Qed.

Lemma all_space_alien s : has_alien s = true -> all_space s = false.
Proof.
  induction s as [|c s IH]; cbn; [discriminate|].
  intros H. apply orb_true_iff in H as [H|H].
  - apply alien_facts in H as (-> & _). reflexivity.
  - rewrite (IH H). apply andb_false_r.
Qed.

Lemma digits_tail_alien s : forall acc after_digit,
  has_alien s = true -> digits_tail acc after_digit s = None.
Proof.
  induction s as [|c s IH]; intros acc after_digit; cbn; [discriminate|].
  intros H. apply orb_true_iff in H as [H|H].
  - apply alien_facts in H as (-> & -> & _ & _ & ->). reflexivity.
  - destruct (digit_of c); [apply IH; exact H|].
    destruct (is_underscore c).
    + destruct after_digit; [apply IH; exact H | reflexivity].
    + rewrite (all_space_alien s H), andb_false_r. reflexivity.
Qed.

Lemma digits_alien s : has_alien s = true -> digits s = None.
Proof.
  destruct s as [|c s]; cbn; [discriminate|].
  intros H. apply orb_true_iff in H as [H|H].
  - apply alien_facts in H as (_ & _ & _ & _ & ->). reflexivity.
  - destruct (digit_of c); [apply digits_tail_alien; exact H | reflexivity].
Qed.

Lemma lstrip_alien s : has_alien s = true -> has_alien (lstrip s) = true.
Proof.
  induction s as [|c s IH]; cbn; [discriminate|].
  intros H. destruct (is_space c) eqn:Hs; [|exact H].
  apply IH. apply orb_true_iff in H as [H|H]; [|exact H].
  apply alien_facts in H as (Hs' & _). congruence.
Qed.

(** A header value with a character that is no digit, sign, underscore or
    blank is not an integer literal: [int] raises. *)
Lemma int_of_str_alien s : has_alien s = true -> int_of_str s = None.
Proof.
  intros H. apply lstrip_alien in H. unfold int_of_str.
  destruct (lstrip s) as [|c s']; [reflexivity|].
  destruct (Ascii.eqb c "-") eqn:Hm; [|destruct (Ascii.eqb c "+") eqn:Hp].
  - cbn in H. apply orb_true_iff in H as [H|H].
    + apply alien_facts in H as (_ & _ & Hm' & _). congruence.
    + rewrite (digits_alien s' H). reflexivity.
  - cbn in H. apply orb_true_iff in H as [H|H].
    + apply alien_facts in H as (_ & _ & _ & Hp' & _). congruence.
    + apply digits_alien; exact H.
  - apply digits_alien; exact H.
Qed.


(** ** [download_file] *)

Lemma acquired_events_count_new total j :
  count is_ProgressNew (acquire_events (acquired total j)) =
    if 0 <? total then 1%nat else 0%nat.
Proof. unfold acquired. destruct (0 <? total); reflexivity. Qed.

Lemma acquired_events_count_stop total j :
  count is_Stop (acquire_events (acquired total j)) = 0%nat.
Proof. unfold acquired. destruct (0 <? total); reflexivity. Qed.

Lemma stop_events_count_stop total j :
  count is_Stop (stop_events (acquired total j)) =
    if 0 <? total then 1%nat else 0%nat.
Proof. unfold acquired. destruct (0 <? total); reflexivity. Qed.

Lemma stop_events_count_new progress :
  count is_ProgressNew (stop_events progress) = 0%nat.
Proof. destruct progress as [[p task]|]; reflexivity. Qed.

Lemma not_opened_after_close (path : string) (l : list string) :
  path ∉ filter (fun p => p ≠ path) l.
Proof. intros H. apply list_elem_of_filter in H as [H _]. apply H. reflexivity. Qed.

(** C6: a download answered with a 2xx response that carries
    [content-length: 1024] and whose body arrives from the stream in two
    chunks of 512 bytes reports two progress updates, 50.0 and then 100.0
    percent, and leaves in the output file the first chunk followed by the
    second. *)
Theorem download_two_chunks_progress
    (url path : string) (w : World) (r : Response) (c1 c2 : bytes) :
  answers w url r ->
  unsuccessful r = false ->
  headers r !! "content-length" = Some "1024" ->
  cached r = None ->
  chunks r = [c1; c2] ->
  length c1 = 512%nat ->
  length c2 = 512%nat ->
  interruption r = None ->
  path ∉ denied w ->
  exists w',
    download_file url path w = (Ok tt, w')
    /\ completions (journal w') = completions (journal w) ++ [50%float; 100%float]
    /\ disk w' !! path = Some (c1 ++ c2).
Proof.
  intros Ha Hu Hh Hcache Hc H1 H2 Hi Hd.
  assert (content_length r = Ok 1024) as Hlen
    by (rewrite (content_length_present r _ Hh); reflexivity).
  assert (ending r = None) as Hend by (unfold ending; rewrite Hcache; exact Hi).
  rewrite (download_file_run url path w r 1024 Ha (read_fails_success r Hu)
             (success_not_error r Hu) Hlen Hd).
  rewrite (seen_success r Hu).
  eexists. split; [|split].
  - unfold outcome. rewrite Hend. reflexivity.
  - cbn [journal]. rewrite !completions_app, completions_checked.
    unfold reaches_stop, acquired. rewrite Hend, (pieces_unread r Hcache), Hc. cbn.
    rewrite H1, H2. f_equal; vm_compute; reflexivity.
  - cbn [disk]. rewrite lookup_insert_eq, (body_unread r Hcache), Hc. cbn.
    rewrite app_nil_r. reflexivity.
Qed.

Lemma download_two_chunks_progress_witness :
  let r := streamed {["content-length" := "1024"]} two_chunks None in
  let w := world_answering r in
  exists w',
    download_file "https://example.org/data.zip" "data.zip" w = (Ok tt, w')
    /\ completions (journal w') = completions (journal w) ++ [50%float; 100%float]
    /\ disk w' !! "data.zip" = Some (repeat Byte.x61 512 ++ repeat Byte.x62 512).
Proof.
  intros r w.
  apply (download_two_chunks_progress "https://example.org/data.zip" "data.zip" w r
           (repeat Byte.x61 512) (repeat Byte.x62 512)).
  - reflexivity.
  - reflexivity.
  - reflexivity.
  - reflexivity.
  - reflexivity.
  - apply repeat_length.
  - apply repeat_length.
  - reflexivity.
  - apply not_elem_of_empty.
Defined.

(** C8: a download whose response has no content-length header, or one
    whose value is 0, acquires no progress indicator (it adds debug lines
    to the journal and nothing else) and writes the whole body to the
    output path. *)
Theorem download_without_total_size
    (url path : string) (w : World) (r : Response) :
  answers w url r ->
  error_status r = false ->
  headers r !! "content-length" = None
    \/ (exists v, headers r !! "content-length" = Some v /\ int_of_str v = Some 0) ->
  ending r = None ->
  path ∉ denied w ->
  exists w',
    download_file url path w = (Ok tt, w')
    /\ count is_ProgressNew (journal w') = count is_ProgressNew (journal w)
    /\ List.filter (fun e => negb (is_Debug e)) (journal w') =
         List.filter (fun e => negb (is_Debug e)) (journal w)
    /\ disk w' !! path = Some (body r).
Proof.
  intros Ha He Hh Hend Hd.
  assert (content_length r = Ok 0) as Hlen.
  { destruct Hh as [Hh | (v & Hh & Hv)].
    - apply content_length_missing; exact Hh.
    - rewrite (content_length_present r v Hh), Hv. reflexivity. }
  assert (read_fails r = None) as Hr
    by (unfold read_fails; destruct (unsuccessful r); [exact Hend | reflexivity]).
  rewrite (download_file_run url path w r 0 Ha Hr He Hlen Hd).
  eexists. split; [|split; [|split]].
  - unfold outcome. rewrite (seen_ending r Hr), Hend. reflexivity.
  - cbn [journal acquired Z.ltb Z.compare acquire_events stop_events].
    rewrite update_events_None. cbn [app].
    destruct (reaches_stop (seen r)); rewrite !app_nil_r;
      apply count_checked; reflexivity.
  - cbn [journal acquired Z.ltb Z.compare acquire_events stop_events].
    rewrite update_events_None. cbn [app].
    destruct (reaches_stop (seen r)); rewrite !app_nil_r;
      rewrite checked_journal, List.filter_app;
      destruct (unsuccessful r); cbn; rewrite app_nil_r; reflexivity.
  - cbn [disk]. apply lookup_insert_eq.
Qed.

Lemma download_without_total_size_witness :
  let r := streamed ∅ two_chunks None in
  let r0 := streamed {["content-length" := "0"]} two_chunks None in
  (exists w',
     download_file "https://example.org/data.zip" "data.zip" (world_answering r)
       = (Ok tt, w')
     /\ count is_ProgressNew (journal w') = 0%nat
     /\ List.filter (fun e => negb (is_Debug e)) (journal w') = []
     /\ disk w' !! "data.zip" = Some (concat two_chunks))
  /\ (exists w',
        download_file "https://example.org/data.zip" "data.zip" (world_answering r0)
          = (Ok tt, w')
        /\ count is_ProgressNew (journal w') = 0%nat
        /\ List.filter (fun e => negb (is_Debug e)) (journal w') = []
        /\ disk w' !! "data.zip" = Some (concat two_chunks)).
Proof.
  intros r r0. split.
  - apply (download_without_total_size "https://example.org/data.zip" "data.zip"
             (world_answering r) r).
    + reflexivity.
    + reflexivity.
    + left. reflexivity.
    + reflexivity.
    + apply not_elem_of_empty.
  - apply (download_without_total_size "https://example.org/data.zip" "data.zip"
             (world_answering r0) r0).
    + reflexivity.
    + reflexivity.
    + right. exists "0". split; reflexivity.
    + reflexivity.
    + apply not_elem_of_empty.
Defined.

(** C7: when the stream of a download is interrupted by
    [KeyboardInterrupt], the same [KeyboardInterrupt] reaches the caller.
    After a 2xx answer the interruption falls in the loop: the progress
    indicator, if one was acquired (total size above 0), has been stopped
    exactly once, as the last event of the call; the output file exists
    and holds the chunks written before the interruption, and its handle
    is closed. After an answer outside [200, 300) the interruption falls
    earlier, where the status check reads the body for its log line: no
    indicator has been acquired and the filesystem has not been touched. *)
Theorem download_cancelled_stops_once
    (url path : string) (w : World) (r : Response) (total : Z) :
  answers w url r ->
  content_length r = Ok total ->
  ending r = Some KeyboardInterrupt ->
  path ∉ denied w ->
  (unsuccessful r = false ->
   exists w',
     download_file url path w = (Raise KeyboardInterrupt, w')
     /\ (let j := journal (checked ("--> GET " +:+ url) r w) in
         journal w' = j ++ acquire_events (acquired total j)
                        ++ update_events (acquired total j) total 0 (chunks r)
                        ++ stop_events (acquired total j))
     /\ count is_ProgressNew (journal w') =
          (count is_ProgressNew (journal w) + if (0 <? total)%Z then 1 else 0)%nat
     /\ count is_Stop (journal w') =
          (count is_Stop (journal w) + if (0 <? total)%Z then 1 else 0)%nat
     /\ disk w' !! path = Some (concat (chunks r))
     /\ path ∉ opened w')
  /\ (unsuccessful r = true ->
      download_file url path w =
        (Raise KeyboardInterrupt, record (Debug ("--> GET " +:+ url)) w)).
Proof.
  intros Ha Hlen Hend Hd.
  destruct (ending_unread r _ Hend) as [Hcache _].
  split; intros Hu.
  - rewrite (download_file_run url path w r total Ha (read_fails_success r Hu)
               (success_not_error r Hu) Hlen Hd).
    rewrite (seen_success r Hu), (pieces_unread r Hcache), (body_unread r Hcache).
    eexists. split; [|split; [|split; [|split; [|split]]]].
    + unfold outcome. rewrite Hend. reflexivity.
    + cbn [journal]. unfold reaches_stop. rewrite Hend. reflexivity.
    + cbn [journal]. unfold reaches_stop. rewrite Hend. cbn [is_KeyboardInterrupt].
      rewrite !count_app, count_checked, acquired_events_count_new,
        count_update_events, stop_events_count_new by reflexivity.
      lia.
    + cbn [journal]. unfold reaches_stop. rewrite Hend. cbn [is_KeyboardInterrupt].
      rewrite !count_app, count_checked, acquired_events_count_stop,
        count_update_events, stop_events_count_stop by reflexivity.
      lia.
    + cbn [disk]. apply lookup_insert_eq.
    + cbn [opened]. apply not_opened_after_close.
  - apply (download_read_fails url path w r); [exact Ha|].
    rewrite (read_fails_unsuccessful r Hu). exact Hend.
Qed.

Lemma download_cancelled_stops_once_witness :
  let r := streamed {["content-length" := "2048"]} two_chunks (Some KeyboardInterrupt) in
  let r' := streaming 300 {["content-length" := "3"]} [[Byte.x61]] (Some KeyboardInterrupt) in
  (exists w',
     download_file "https://example.org/data.zip" "data.zip" (world_answering r)
       = (Raise KeyboardInterrupt, w')
     /\ count is_ProgressNew (journal w') = 1%nat
     /\ count is_Stop (journal w') = 1%nat
     /\ last (journal w') = Some (Stop 0)
     /\ disk w' !! "data.zip" = Some (concat two_chunks)
     /\ "data.zip" ∉ opened w')
  /\ download_file "https://example.org/data.zip" "data.zip" (world_answering r')
       = (Raise KeyboardInterrupt,
          record (Debug "--> GET https://example.org/data.zip") (world_answering r')).
Proof.
  intros r r'.
  assert (forall x : Response, "data.zip" ∉ denied (world_answering x)) as Hfree
    by (intros x; apply not_elem_of_empty).
  split.
  - destruct (proj1 (download_cancelled_stops_once "https://example.org/data.zip"
                       "data.zip" (world_answering r) r 2048
                       eq_refl eq_refl eq_refl (Hfree r)) eq_refl)
      as (w' & Hrun & Hj & Hnew & Hstop & Hdisk & Hclosed).
    exists w'. split; [exact Hrun|]. split; [exact Hnew|]. split; [exact Hstop|].
    split; [rewrite Hj; reflexivity|]. split; [exact Hdisk | exact Hclosed].
  - exact (proj2 (download_cancelled_stops_once "https://example.org/data.zip"
                    "data.zip" (world_answering r') r' 3
                    eq_refl eq_refl eq_refl (Hfree r')) eq_refl).
Defined.

Lemma is_KeyboardInterrupt_eq e :
  is_KeyboardInterrupt e = true -> e = KeyboardInterrupt.
Proof. destruct e; try discriminate. reflexivity. Qed.

(** The count of [stop] calls after a download that reaches the loop. *)
Lemma download_stop_count url path w r total :
  answers w url r ->
  read_fails r = None ->
  error_status r = false ->
  content_length r = Ok total ->
  path ∉ denied w ->
  count is_Stop (journal (snd (download_file url path w))) =
    (count is_Stop (journal w)
     + if reaches_stop (seen r) then (if (0 <? total)%Z then 1 else 0) else 0)%nat.
Proof.
  intros Ha Hr He Hlen Hd.
  rewrite (download_file_run url path w r total Ha Hr He Hlen Hd). cbn [snd journal].
  rewrite !count_app, count_checked, acquired_events_count_stop,
    count_update_events by reflexivity.
  destruct (reaches_stop (seen r)).
  - rewrite stop_events_count_stop. lia.
  - cbn. lia.
Qed.

(** C10: when the stream of a download is broken by an exception other
    than [KeyboardInterrupt], that exception reaches the caller and no
    [stop] has been sent to the progress indicator. After a 2xx answer the
    break falls in the loop: the handle of the output file has been
    closed, and the indicator acquired for a positive total size is left
    running. After an answer outside [200, 300) the break falls earlier,
    where the status check reads the body: there is no indicator and no
    handle yet. Over all the ways a stream can end, a [stop] is sent only
    when it ends normally or is cancelled. *)
Theorem download_broken_never_stops
    (url path : string) (w : World) (r : Response) (total : Z) :
  answers w url r ->
  content_length r = Ok total ->
  path ∉ denied w ->
  (forall e, ending r = Some e -> is_KeyboardInterrupt e = false ->
     (unsuccessful r = false ->
      exists w',
        download_file url path w = (Raise e, w')
        /\ (path ∉ opened w')
        /\ count is_ProgressNew (journal w') =
             (count is_ProgressNew (journal w) + if (0 <? total)%Z then 1 else 0)%nat
        /\ count is_Stop (journal w') = count is_Stop (journal w))
     /\ (unsuccessful r = true ->
         download_file url path w = (Raise e, record (Debug ("--> GET " +:+ url)) w)))
  /\ (count is_Stop (journal (snd (download_file url path w))) <> count is_Stop (journal w) ->
      ending r = None \/ ending r = Some KeyboardInterrupt).
Proof.
  intros Ha Hlen Hd. split.
  - intros e Hend Hk. destruct (ending_unread r _ Hend) as [Hcache _].
    split; intros Hu.
    + pose proof (download_stop_count url path w r total Ha (read_fails_success r Hu)
                    (success_not_error r Hu) Hlen Hd) as Hstop.
      revert Hstop.
      rewrite (download_file_run url path w r total Ha (read_fails_success r Hu)
                 (success_not_error r Hu) Hlen Hd).
      rewrite (seen_success r Hu). unfold reaches_stop, outcome. rewrite Hend, Hk.
      cbn [snd]. intros Hstop.
      eexists. split; [reflexivity|]. split; [|split].
      * cbn [opened]. apply not_opened_after_close.
      * cbn [journal].
        rewrite !count_app, count_checked, acquired_events_count_new,
          count_update_events by reflexivity.
        cbn. lia.
      * rewrite Hstop. lia.
    + apply (download_read_fails url path w r); [exact Ha|].
      rewrite (read_fails_unsuccessful r Hu). exact Hend.
  - destruct (read_fails r) as [e|] eqn:Hr.
    { rewrite (download_read_fails url path w r e Ha Hr). cbn [snd journal record].
      rewrite count_app. cbn. intros H. exfalso. apply H. lia. }
    destruct (error_status r) eqn:He.
    { destruct (download_error_status url path w r Ha Hr He) as [message ->].
      cbn [snd]. rewrite count_checked by reflexivity. intros H. exfalso. apply H.
      reflexivity. }
    rewrite (download_stop_count url path w r total Ha Hr He Hlen Hd).
    unfold reaches_stop. rewrite (seen_ending r Hr).
    destruct (ending r) as [e|]; [|auto].
    destruct (is_KeyboardInterrupt e) eqn:Hk.
    + intros _. right. rewrite (is_KeyboardInterrupt_eq e Hk). reflexivity.
    + intros H. exfalso. apply H. lia.
Qed.

Lemma download_broken_never_stops_witness :
  let e := OtherError "ChunkedEncodingError" in
  let r := streamed {["content-length" := "2048"]} two_chunks (Some e) in
  let r' := streaming 300 {["content-length" := "3"]} [[Byte.x61]] (Some e) in
  (exists w',
     download_file "https://example.org/data.zip" "data.zip" (world_answering r)
       = (Raise e, w')
     /\ ("data.zip" ∉ opened w')
     /\ count is_ProgressNew (journal w') = 1%nat
     /\ count is_Stop (journal w') = 0%nat)
  /\ download_file "https://example.org/data.zip" "data.zip" (world_answering r')
       = (Raise e, record (Debug "--> GET https://example.org/data.zip")
                     (world_answering r')).
Proof.
  intros e r r'.
  assert (forall x : Response, "data.zip" ∉ denied (world_answering x)) as Hfree
    by (intros x; apply not_elem_of_empty).
  split.
  - exact (proj1 (proj1 (download_broken_never_stops "https://example.org/data.zip"
                           "data.zip" (world_answering r) r 2048 eq_refl eq_refl
                           (Hfree r)) e eq_refl eq_refl) eq_refl).
  - exact (proj2 (proj1 (download_broken_never_stops "https://example.org/data.zip"
                           "data.zip" (world_answering r') r' 3 eq_refl eq_refl
                           (Hfree r')) e eq_refl eq_refl) eq_refl).
Defined.

(** [download_file] when [int] rejects the content-length: the
    [ValueError] leaves right after the status check. *)
Lemma download_file_rejected url path w r v :
  answers w url r ->
  read_fails r = None ->
  error_status r = false ->
  content_length r = Raise (ValueError v) ->
  download_file url path w =
    (Raise (ValueError v), checked ("--> GET " +:+ url) r w).
Proof. apply download_length_raises. Qed.

(** C2 (as amended): a missing content-length header is read as a total
    size of 0, and the download goes on without a progress indicator. A
    header value that [int] rejects, as it does every value with a
    character that is no digit, sign, underscore or blank, is not read as
    0: its [ValueError] leaves [download_file] right after the status
    check, before an indicator is acquired or the output path is opened. *)
Theorem content_length_missing_or_rejected
    (url path : string) (w : World) (r : Response) :
  answers w url r ->
  read_fails r = None ->
  error_status r = false ->
  (headers r !! "content-length" = None ->
   content_length r = Ok 0
   /\ (path ∉ denied w ->
       exists w',
         download_file url path w = (outcome (seen r), w')
         /\ count is_ProgressNew (journal w') = count is_ProgressNew (journal w)
         /\ disk w' !! path = Some (body r)))
  /\ (forall v, headers r !! "content-length" = Some v ->
        int_of_str v = None \/ has_alien v = true ->
        download_file url path w =
          (Raise (ValueError v), checked ("--> GET " +:+ url) r w)).
Proof.
  intros Ha Hr He. split.
  - intros Hh. pose proof (content_length_missing r Hh) as Hlen.
    split; [exact Hlen|]. intros Hd.
    rewrite (download_file_run url path w r 0 Ha Hr He Hlen Hd).
    eexists. split; [reflexivity|]. split.
    + cbn [journal acquired Z.ltb Z.compare acquire_events stop_events].
      rewrite update_events_None. cbn [app].
      destruct (reaches_stop (seen r)); rewrite !app_nil_r;
        apply count_checked; reflexivity.
    + cbn [disk]. apply lookup_insert_eq.
  - intros v Hh Hv.
    assert (int_of_str v = None) as Hnone
      by (destruct Hv as [Hv|Hv]; [exact Hv | apply int_of_str_alien; exact Hv]).
    apply download_file_rejected; [exact Ha | exact Hr | exact He |].
    rewrite (content_length_present r v Hh), Hnone. reflexivity.
Qed.

Lemma content_length_missing_or_rejected_witness :
  let r := streamed ∅ two_chunks None in
  let r' := streamed {["content-length" := "12 bytes"]} two_chunks None in
  (content_length r = Ok 0
   /\ exists w',
        download_file "https://example.org/data.zip" "data.zip" (world_answering r)
          = (Ok tt, w')
        /\ count is_ProgressNew (journal w') = 0%nat
        /\ disk w' !! "data.zip" = Some (concat two_chunks))
  /\ download_file "https://example.org/data.zip" "data.zip" (world_answering r')
       = (Raise (ValueError "12 bytes"),
          checked "--> GET https://example.org/data.zip" r' (world_answering r')).
Proof.
  intros r r'. split.
  - destruct (proj1 (content_length_missing_or_rejected "https://example.org/data.zip"
                       "data.zip" (world_answering r) r eq_refl eq_refl eq_refl) eq_refl)
      as [Hlen Hrun].
    split; [exact Hlen|]. apply Hrun. apply not_elem_of_empty.
  - exact (proj2 (content_length_missing_or_rejected "https://example.org/data.zip"
                    "data.zip" (world_answering r') r' eq_refl eq_refl eq_refl)
             "12 bytes" eq_refl (or_intror eq_refl)).
Defined.

(** C2 as the specification states it fails: with the header value
    ["abc"], which is not numeric, the total size is not taken as 0;
    [int] raises [ValueError], the download does not return, and nothing
    is written to the output path. *)
Lemma content_length_counterexample :
  let r := streamed {["content-length" := "abc"]} two_chunks None in
  let w := world_answering r in
  headers r !! "content-length" = Some "abc"
  /\ int_of_str "abc" = None
  /\ content_length r <> Ok 0
  /\ fst (download_file "https://example.org/data.zip" "data.zip" w)
       = Raise (ValueError "abc")
  /\ (disk (snd (download_file "https://example.org/data.zip" "data.zip" w))
        !! "data.zip") = None
  /\ ~ (exists w', download_file "https://example.org/data.zip" "data.zip" w = (Ok tt, w')).
Proof.
  intros r w. split; [reflexivity|]. split; [reflexivity|].
  split; [vm_compute; discriminate|]. split; [reflexivity|]. split; [reflexivity|].
  intros [w' H]. apply (f_equal fst) in H. vm_compute in H. discriminate.
Qed.

(** The blanks of [int]: a header value with a no-break space before the
    digits, as a Latin-1 header can carry it, is a number. *)
Example int_of_str_no_break_space :
  int_of_str (String (ascii_of_nat 160) "12") = Some 12
  /\ int_of_str ("12" +:+ String (ascii_of_nat 133) EmptyString) = Some 12
  /\ int_of_str (String (ascii_of_nat 28) "5") = None.
Proof. vm_compute. auto. Qed.

(** ** Further properties of the request methods *)

Lemma request_message_insert_option method url kwargs v :
  request_message method url (<["raise_for_status" := v]> kwargs) =
    request_message method url kwargs.
Proof.
  unfold request_message. cbn [next_present].
  rewrite !lookup_insert_ne by discriminate. reflexivity.
Qed.

Lemma dispatch_default_option logged sent url kwargs w :
  kwargs !! "raise_for_status" = None ->
  dispatch logged sent url (<["raise_for_status" := PBool true]> kwargs) w =
    dispatch logged sent url kwargs w.
Proof.
  intros Hnone. rewrite !dispatch_run.
  rewrite delete_insert_eq, request_message_insert_option.
  unfold raise_option. rewrite lookup_insert_eq, Hnone. reflexivity.
Qed.

Lemma dispatch_transport_raises logged sent url kwargs w e :
  transport w sent url (delete "raise_for_status" kwargs) = Raise e ->
  dispatch logged sent url kwargs w =
    (Raise e, record (Debug (request_message logged url kwargs)) w).
Proof. intros H. rewrite dispatch_run, H. reflexivity. Qed.

Lemma dispatch_decision logged sent url kwargs w r :
  transport w sent url (delete "raise_for_status" kwargs) = Ok r ->
  read_fails r = None ->
  snd (dispatch logged sent url kwargs w) =
    checked (request_message logged url kwargs) r w
  /\ (truthy (raise_option kwargs) && error_status r = true ->
      exists message,
        fst (dispatch logged sent url kwargs w) = Raise (HTTPError message (seen r)))
  /\ (truthy (raise_option kwargs) && error_status r = false ->
      fst (dispatch logged sent url kwargs w) = Ok (seen r)).
Proof.
  intros Hs Hr. rewrite dispatch_run, Hs, Hr. cbn zeta.
  destruct (truthy (raise_option kwargs)); cbn [andb].
  - destruct (error_status r) eqn:He.
    + rewrite <- seen_error_status in He.
      destruct (raise_for_status_error (seen r) He) as [message ->].
      split; [reflexivity|]. split; [eauto | discriminate].
    + rewrite <- seen_error_status in He. rewrite (raise_for_status_pass (seen r) He).
      split; [reflexivity|]. split; [discriminate | reflexivity].
  - split; [reflexivity|]. split; [discriminate | reflexivity].
Qed.

Lemma dispatch_read_fails logged sent url kwargs w r e :
  transport w sent url (delete "raise_for_status" kwargs) = Ok r ->
  read_fails r = Some e ->
  dispatch logged sent url kwargs w =
    (Raise e, record (Debug (request_message logged url kwargs)) w).
Proof. intros Hs Hr. rewrite dispatch_run, Hs, Hr. reflexivity. Qed.

(** X1: when the transport itself fails (no response), [get], [post] and
    [request] let its exception through unchanged; the request line has
    been logged, and nothing else. *)
Theorem transport_failure_propagates
    (w : World) (method url : string) (kwargs : gmap string pyval) (e : exn) :
  (transport w "get" url (delete "raise_for_status" kwargs) = Raise e ->
   get url kwargs w = (Raise e, record (Debug (request_message "GET" url kwargs)) w))
  /\ (transport w "post" url (delete "raise_for_status" kwargs) = Raise e ->
      post url kwargs w = (Raise e, record (Debug (request_message "POST" url kwargs)) w))
  /\ (transport w method url (delete "raise_for_status" kwargs) = Raise e ->
      request method url kwargs w =
        (Raise e, record (Debug (request_message method url kwargs)) w)).
Proof.
  rewrite get_dispatch, post_dispatch, request_dispatch.
  split; [|split]; apply dispatch_transport_raises.
Qed.

Lemma transport_failure_propagates_witness :
  let e := OtherError "ConnectionError" in
  let w := world_failing e in
  get "https://example.org/data" ∅ w =
    (Raise e, record (Debug "--> GET https://example.org/data") w)
  /\ post "https://example.org/data" {["raise_for_status" := PBool false]} w =
       (Raise e, record (Debug "--> POST https://example.org/data") w)
  /\ request "head" "https://example.org/data" ∅ w =
       (Raise e, record (Debug "--> HEAD https://example.org/data") w).
Proof.
  intros e w.
  split; [|split].
  - exact (proj1 (transport_failure_propagates w "head" "https://example.org/data" ∅ e)
             eq_refl).
  - exact (proj1 (proj2 (transport_failure_propagates w "head" "https://example.org/data"
                           {["raise_for_status" := PBool false]} e)) eq_refl).
  - exact (proj2 (proj2 (transport_failure_propagates w "head" "https://example.org/data"
                           ∅ e)) eq_refl).
Defined.

(** X2: leaving the [raise_for_status] option out is the same as passing
    [True]: for [get], [post] and [request] the two calls send the same
    options to the transport, log the same lines and end the same way. *)
Theorem raise_for_status_defaults_to_true
    (w : World) (method url : string) (kwargs : gmap string pyval) :
  kwargs !! "raise_for_status" = None ->
  get url (<["raise_for_status" := PBool true]> kwargs) w = get url kwargs w
  /\ post url (<["raise_for_status" := PBool true]> kwargs) w = post url kwargs w
  /\ request method url (<["raise_for_status" := PBool true]> kwargs) w =
       request method url kwargs w.
Proof.
  intros Hnone. rewrite !get_dispatch, !post_dispatch, !request_dispatch.
  split; [|split]; apply dispatch_default_option; exact Hnone.
Qed.

Lemma raise_for_status_defaults_to_true_witness :
  let w := world_answering (sample_response 500 "down") in
  let kwargs : gmap string pyval := {["params" := PDict [("page", PInt 2)]]} in
  get "https://example.org/data" (<["raise_for_status" := PBool true]> kwargs) w =
    get "https://example.org/data" kwargs w
  /\ post "https://example.org/data" (<["raise_for_status" := PBool true]> kwargs) w =
       post "https://example.org/data" kwargs w
  /\ request "put" "https://example.org/data" (<["raise_for_status" := PBool true]> kwargs) w =
       request "put" "https://example.org/data" kwargs w.
Proof.
  intros w kwargs.
  apply (raise_for_status_defaults_to_true w "put" "https://example.org/data" kwargs).
  reflexivity.
Defined.

(** X3: once the status check has read what it needs, whether an error
    reaches the caller is decided by the truth value of the option and by
    the status code alone: [get], [post] and [request] raise an
    [HTTPError] carrying the response when the option is truthy and the
    code is in [400, 600), and return the response in every other case; so
    [None], [0] or an empty string suppress the error as [False] does. *)
Theorem error_raised_iff_truthy_and_error_status
    (w : World) (method url : string) (kwargs : gmap string pyval) (r : Response) :
  read_fails r = None ->
  (transport w "get" url (delete "raise_for_status" kwargs) = Ok r ->
   (truthy (raise_option kwargs) && error_status r = true ->
    exists message, fst (get url kwargs w) = Raise (HTTPError message (seen r)))
   /\ (truthy (raise_option kwargs) && error_status r = false ->
       fst (get url kwargs w) = Ok (seen r)))
  /\ (transport w "post" url (delete "raise_for_status" kwargs) = Ok r ->
      (truthy (raise_option kwargs) && error_status r = true ->
       exists message, fst (post url kwargs w) = Raise (HTTPError message (seen r)))
      /\ (truthy (raise_option kwargs) && error_status r = false ->
          fst (post url kwargs w) = Ok (seen r)))
  /\ (transport w method url (delete "raise_for_status" kwargs) = Ok r ->
      (truthy (raise_option kwargs) && error_status r = true ->
       exists message,
         fst (request method url kwargs w) = Raise (HTTPError message (seen r)))
      /\ (truthy (raise_option kwargs) && error_status r = false ->
          fst (request method url kwargs w) = Ok (seen r))).
Proof.
  intros Hr. rewrite get_dispatch, post_dispatch, request_dispatch.
  split; [|split]; intros Hs.
  - destruct (dispatch_decision "GET" "get" url kwargs w r Hs Hr) as (_ & Hraise & Hret).
    split; assumption.
  - destruct (dispatch_decision "POST" "post" url kwargs w r Hs Hr) as (_ & Hraise & Hret).
    split; assumption.
  - destruct (dispatch_decision method method url kwargs w r Hs Hr) as (_ & Hraise & Hret).
    split; assumption.
Qed.

Lemma error_raised_iff_truthy_and_error_status_witness :
  let r := sample_response 404 "gone" in
  let w := world_answering r in
  (exists message,
     fst (get "https://example.org/data" {["raise_for_status" := PInt 1]} w)
       = Raise (HTTPError message r))
  /\ fst (get "https://example.org/data" {["raise_for_status" := PNone]} w) = Ok r
  /\ fst (post "https://example.org/data" {["raise_for_status" := PInt 0]} w) = Ok r
  /\ fst (request "put" "https://example.org/data"
            {["raise_for_status" := PStr EmptyString]} w) = Ok r.
Proof.
  intros r w. split; [|split; [|split]].
  - exact (proj1 (proj1 (error_raised_iff_truthy_and_error_status w "put"
             "https://example.org/data" {["raise_for_status" := PInt 1]} r eq_refl)
             eq_refl) eq_refl).
  - exact (proj2 (proj1 (error_raised_iff_truthy_and_error_status w "put"
             "https://example.org/data" {["raise_for_status" := PNone]} r eq_refl)
             eq_refl) eq_refl).
  - exact (proj2 (proj1 (proj2 (error_raised_iff_truthy_and_error_status w "put"
             "https://example.org/data" {["raise_for_status" := PInt 0]} r eq_refl))
             eq_refl) eq_refl).
  - exact (proj2 (proj2 (proj2 (error_raised_iff_truthy_and_error_status w "put"
             "https://example.org/data" {["raise_for_status" := PStr EmptyString]} r
             eq_refl)) eq_refl) eq_refl).
Defined.

(** X17: when the response is unsuccessful and its body cannot be read (a
    streamed answer whose stream breaks), [get], [post] and [request] end
    with the exception of the stream, whatever the [raise_for_status]
    option holds: the status check reads the body for its log line before
    anything else, so neither the unsuccessful-response line is logged nor
    an [HTTPError] raised. *)
Theorem request_unreadable_body_raises
    (w : World) (method url : string) (kwargs : gmap string pyval)
    (r : Response) (e : exn) :
  status_code r < 200 \/ 300 <= status_code r ->
  ending r = Some e ->
  (transport w "get" url (delete "raise_for_status" kwargs) = Ok r ->
   get url kwargs w = (Raise e, record (Debug (request_message "GET" url kwargs)) w))
  /\ (transport w "post" url (delete "raise_for_status" kwargs) = Ok r ->
      post url kwargs w = (Raise e, record (Debug (request_message "POST" url kwargs)) w))
  /\ (transport w method url (delete "raise_for_status" kwargs) = Ok r ->
      request method url kwargs w =
        (Raise e, record (Debug (request_message method url kwargs)) w)).
Proof.
  intros Hout Hend.
  assert (read_fails r = Some e) as Hr
    by (rewrite (read_fails_unsuccessful r (unsuccessful_outside r Hout)); exact Hend).
  rewrite get_dispatch, post_dispatch, request_dispatch.
  split; [|split]; intros Hs; apply (dispatch_read_fails _ _ url kwargs w r e Hs Hr).
Qed.

Lemma request_unreadable_body_raises_witness :
  let e := OtherError "ChunkedEncodingError" in
  let r := streaming 404 ∅ [[Byte.x61]] (Some e) in
  let w := world_answering r in
  get "https://example.org/data" {["stream" := PBool true; "raise_for_status" := PBool false]} w
    = (Raise e, record (Debug "--> GET https://example.org/data") w)
  /\ post "https://example.org/data" {["stream" := PBool true]} w
       = (Raise e, record (Debug "--> POST https://example.org/data") w)
  /\ request "put" "https://example.org/data" {["stream" := PBool true]} w
       = (Raise e, record (Debug "--> PUT https://example.org/data") w).
Proof.
  intros e r w.
  assert (status_code r < 200 \/ 300 <= status_code r) as Hout
    by (right; vm_compute; discriminate).
  split; [|split].
  - exact (proj1 (request_unreadable_body_raises w "put" "https://example.org/data"
                    {["stream" := PBool true; "raise_for_status" := PBool false]}
                    r e Hout eq_refl) eq_refl).
  - exact (proj1 (proj2 (request_unreadable_body_raises w "put" "https://example.org/data"
                           {["stream" := PBool true]} r e Hout eq_refl)) eq_refl).
  - exact (proj2 (proj2 (request_unreadable_body_raises w "put" "https://example.org/data"
                           {["stream" := PBool true]} r e Hout eq_refl)) eq_refl).
Defined.

Lemma append_cancel_l (s t : string) : s +:+ t = s -> t = EmptyString.
Proof.
  induction s as [|c s IH]; cbn; intros H; [exact H|].
  injection H as H. apply IH. exact H.
Qed.

Lemma request_message_selected method url kwargs :
  request_message method url kwargs =
    if is_None (selected kwargs) || is_empty_dict (selected kwargs)
    then bare_line method url
    else bare_line method url +:+ " with data:" +:+ Json.newline
           +:+ Json.dumps (selected kwargs).
Proof.
  unfold request_message, selected, bare_line.
  destruct (is_None _), (is_empty_dict _); reflexivity.
Qed.

(** X4: the request line depends on the options only through [json],
    [data] and [params]: two option sets that agree on these three log the
    same line, so headers, credentials, timeouts and the like never reach
    the log. *)
Theorem request_line_ignores_other_options
    (method url : string) (kwargs kwargs' : gmap string pyval) (w : World) :
  kwargs !! "json" = kwargs' !! "json" ->
  kwargs !! "data" = kwargs' !! "data" ->
  kwargs !! "params" = kwargs' !! "params" ->
  _log_request method url kwargs w = _log_request method url kwargs' w.
Proof.
  intros Hj Hd Hp. unfold _log_request, request_message. cbn [next_present].
  rewrite Hj, Hd, Hp. reflexivity.
Qed.

Lemma request_line_ignores_other_options_witness :
  let secret : gmap string pyval :=
    {["headers" := PDict [("Authorization", PStr "Basic dXNlcjpwYXNz")];
      "json" := PDict [("name", PStr "alpha")]]} in
  let plain : gmap string pyval := {["json" := PDict [("name", PStr "alpha")]]} in
  let w := world_answering (sample_response 200 EmptyString) in
  _log_request "post" "https://example.org/data" secret w =
    _log_request "post" "https://example.org/data" plain w.
Proof.
  intros secret plain w.
  apply (request_line_ignores_other_options "post" "https://example.org/data"
           secret plain w); reflexivity.
Defined.

(** X5: the payload part is left out of the request line exactly when the
    selected option value is [None] or the empty dict; any other value, an
    empty list, an empty string, [0] or [False] included, is serialised
    after [" with data:"] and a newline. *)
Theorem payload_omitted_iff_none_or_empty_dict
    (method url : string) (kwargs : gmap string pyval) :
  (request_message method url kwargs = bare_line method url
   <-> is_None (selected kwargs) || is_empty_dict (selected kwargs) = true)
  /\ (is_None (selected kwargs) || is_empty_dict (selected kwargs) = false ->
      request_message method url kwargs =
        bare_line method url +:+ " with data:" +:+ Json.newline
          +:+ Json.dumps (selected kwargs)).
Proof.
  rewrite request_message_selected.
  destruct (is_None (selected kwargs) || is_empty_dict (selected kwargs)).
  - split; [split; reflexivity | discriminate].
  - split; [|reflexivity]. split; [|discriminate].
    intros H. apply append_cancel_l in H. discriminate.
Qed.

Lemma payload_omitted_iff_none_or_empty_dict_witness :
  request_message "get" "https://example.org/data" {["json" := PList []]} =
    bare_line "get" "https://example.org/data" +:+ " with data:" +:+ Json.newline +:+ "[]"
  /\ request_message "get" "https://example.org/data" {["data" := PStr EmptyString]} <>
       bare_line "get" "https://example.org/data"
  /\ request_message "get" "https://example.org/data" {["params" := PDict []]} =
       bare_line "get" "https://example.org/data".
Proof.
  split; [|split].
  - exact (proj2 (payload_omitted_iff_none_or_empty_dict "get" "https://example.org/data"
                    {["json" := PList []]}) eq_refl).
  - intros H.
    apply (proj1 (payload_omitted_iff_none_or_empty_dict "get" "https://example.org/data"
                    {["data" := PStr EmptyString]})) in H.
    vm_compute in H. discriminate.
  - exact (proj2 (proj1 (payload_omitted_iff_none_or_empty_dict "get"
                    "https://example.org/data" {["params" := PDict []]})) eq_refl).
Defined.

Lemma dispatch_frame logged sent url kwargs w :
  let w' := snd (dispatch logged sent url kwargs w) in
  disk w' = disk w /\ opened w' = opened w /\ denied w' = denied w
  /\ transport w' = transport w
  /\ exists rest,
       journal w' = journal w ++ Debug (request_message logged url kwargs) :: rest
       /\ (rest = [] \/ exists r, rest = [Debug (unsuccessful_message r)]).
Proof.
  cbn zeta. rewrite dispatch_run.
  destruct (transport w sent url _) as [r|e].
  - destruct (read_fails r) as [e|].
    { cbn. repeat (split; [reflexivity|]). exists []. auto. }
    assert (let w1 := checked (request_message logged url kwargs) r w in
            disk w1 = disk w /\ opened w1 = opened w /\ denied w1 = denied w
            /\ transport w1 = transport w
            /\ exists rest,
                 journal w1 = journal w ++ Debug (request_message logged url kwargs) :: rest
                 /\ (rest = [] \/ exists r, rest = [Debug (unsuccessful_message r)])) as H.
    { cbn zeta. rewrite checked_journal. unfold checked.
      destruct (unsuccessful r); cbn; repeat (split; [reflexivity|]); eauto. }
    cbn zeta in *.
    destruct (truthy _); [destruct (Requests.raise_for_status (seen r))|]; exact H.
  - cbn. repeat (split; [reflexivity|]). exists []. auto.
Qed.

(** X6: [get], [post] and [request] never touch the filesystem, whatever
    the transport does: files and open handles are as before. The journal
    grows by the request line, logged first, and by at most one more line,
    the unsuccessful-response line. *)
Theorem request_methods_only_log
    (w : World) (method url : string) (kwargs : gmap string pyval) :
  (let w' := snd (get url kwargs w) in
   disk w' = disk w /\ opened w' = opened w
   /\ exists rest,
        journal w' = journal w ++ Debug (request_message "GET" url kwargs) :: rest
        /\ (rest = [] \/ exists r, rest = [Debug (unsuccessful_message r)]))
  /\ (let w' := snd (post url kwargs w) in
      disk w' = disk w /\ opened w' = opened w
      /\ exists rest,
           journal w' = journal w ++ Debug (request_message "POST" url kwargs) :: rest
           /\ (rest = [] \/ exists r, rest = [Debug (unsuccessful_message r)]))
  /\ (let w' := snd (request method url kwargs w) in
      disk w' = disk w /\ opened w' = opened w
      /\ exists rest,
           journal w' = journal w ++ Debug (request_message method url kwargs) :: rest
           /\ (rest = [] \/ exists r, rest = [Debug (unsuccessful_message r)])).
Proof.
  rewrite get_dispatch, post_dispatch, request_dispatch.
  split; [|split].
  - destruct (dispatch_frame "GET" "get" url kwargs w) as (Hd & Ho & _ & _ & Hj). auto.
  - destruct (dispatch_frame "POST" "post" url kwargs w) as (Hd & Ho & _ & _ & Hj). auto.
  - destruct (dispatch_frame method method url kwargs w) as (Hd & Ho & _ & _ & Hj). auto.
Qed.

(** ** Further properties of [download_file] *)

(** X7: a download answered with a status in [400, 600) whose body can be
    read ends with the [HTTPError] of the status check, which carries the
    response; the request line and the unsuccessful-response line are
    logged, the output path is neither created nor truncated, no handle is
    opened and no progress indicator is acquired. *)
Theorem download_error_status_leaves_disk
    (url path : string) (w : World) (r : Response) :
  answers w url r ->
  error_status r = true ->
  ending r = None ->
  exists message w',
    download_file url path w = (Raise (HTTPError message (consumed r)), w')
    /\ journal w' = journal w ++ [Debug ("--> GET " +:+ url);
                                    Debug (unsuccessful_message r)]
    /\ disk w' = disk w
    /\ opened w' = opened w.
Proof.
  intros Ha He Hend.
  pose proof (error_status_unsuccessful r He) as Hu.
  assert (read_fails r = None) as Hr
    by (rewrite (read_fails_unsuccessful r Hu); exact Hend).
  destruct (download_error_status url path w r Ha Hr He) as [message Hrun].
  exists message. eexists. split; [exact Hrun|].
  destruct (checked_frame ("--> GET " +:+ url) r w) as (_ & Ed & Eo & _).
  rewrite checked_journal, Hu. auto.
Qed.

Lemma download_error_status_leaves_disk_witness :
  let r := streaming 404 ∅ [[Byte.x6e; Byte.x6f]] None in
  let w := world_with_files r {["data.zip" := [Byte.x01; Byte.x02]]} ∅ in
  exists message w',
    download_file "https://example.org/data.zip" "data.zip" w
      = (Raise (HTTPError message (consumed r)), w')
    /\ journal w' = journal w ++ [Debug "--> GET https://example.org/data.zip";
                                    Debug (unsuccessful_message r)]
    /\ disk w' = disk w
    /\ opened w' = opened w.
Proof.
  intros r w.
  apply (download_error_status_leaves_disk "https://example.org/data.zip" "data.zip" w r);
    reflexivity.
Defined.

(** X8: a download whose transport fails ends with the exception of the
    transport; only the request line has been logged, and the filesystem
    is as before. *)
Theorem download_transport_failure
    (url path : string) (w : World) (e : exn) :
  transport w "get" url {["stream" := PBool true]} = Raise e ->
  exists w',
    download_file url path w = (Raise e, w')
    /\ journal w' = journal w ++ [Debug ("--> GET " +:+ url)]
    /\ disk w' = disk w
    /\ opened w' = opened w.
Proof.
  intros H. rewrite (download_transport_raises url path w e H).
  eexists. split; [reflexivity|]. auto.
Qed.

Lemma download_transport_failure_witness :
  let e := OtherError "ConnectionError" in
  let w := world_failing e in
  exists w',
    download_file "https://example.org/data" "data.zip" w = (Raise e, w')
    /\ journal w' = journal w ++ [Debug "--> GET https://example.org/data"]
    /\ disk w' = disk w
    /\ opened w' = opened w.
Proof.
  intros e w.
  apply (download_transport_failure "https://example.org/data" "data.zip" w e).
  reflexivity.
Defined.

(** X18: a download answered with a status outside [200, 300) whose body
    stream breaks ends with the exception of the stream, raised where the
    status check reads the body for its log line: only the request line
    has been logged, no [HTTPError] is raised even for a 4xx or 5xx code,
    no progress indicator is acquired and the filesystem is as before. *)
Theorem download_unreadable_body_raises
    (url path : string) (w : World) (r : Response) (e : exn) :
  answers w url r ->
  status_code r < 200 \/ 300 <= status_code r ->
  ending r = Some e ->
  exists w',
    download_file url path w = (Raise e, w')
    /\ journal w' = journal w ++ [Debug ("--> GET " +:+ url)]
    /\ disk w' = disk w
    /\ opened w' = opened w.
Proof.
  intros Ha Hout Hend.
  assert (read_fails r = Some e) as Hr
    by (rewrite (read_fails_unsuccessful r (unsuccessful_outside r Hout)); exact Hend).
  rewrite (download_read_fails url path w r e Ha Hr).
  eexists. split; [reflexivity|]. auto.
Qed.

Lemma download_unreadable_body_raises_witness :
  let e := OtherError "ChunkedEncodingError" in
  let r := streaming 404 {["content-length" := "3"]} [[Byte.x61]] (Some e) in
  let w := world_with_files r {["data.zip" := [Byte.x01; Byte.x02]]} ∅ in
  exists w',
    download_file "https://example.org/data.zip" "data.zip" w = (Raise e, w')
    /\ journal w' = journal w ++ [Debug "--> GET https://example.org/data.zip"]
    /\ disk w' = disk w
    /\ opened w' = opened w.
Proof.
  intros e r w.
  apply (download_unreadable_body_raises "https://example.org/data.zip" "data.zip" w r e).
  - reflexivity.
  - right. vm_compute. discriminate.
  - reflexivity.
Defined.

(** X9: a content-length that is zero or negative is a total size that is
    not known: once the status check is passed, no progress indicator is
    acquired, updated or stopped however the stream ends, and the body
    that arrived is written to the output path. *)
Theorem download_nonpositive_total
    (url path : string) (w : World) (r : Response) (total : Z) :
  answers w url r ->
  read_fails r = None ->
  error_status r = false ->
  content_length r = Ok total ->
  total <= 0 ->
  path ∉ denied w ->
  exists w',
    download_file url path w = (outcome r, w')
    /\ List.filter (fun e => negb (is_Debug e)) (journal w') =
         List.filter (fun e => negb (is_Debug e)) (journal w)
    /\ disk w' !! path = Some (body r).
Proof.
  intros Ha Hr He Hlen Hneg Hd.
  rewrite (download_file_run url path w r total Ha Hr He Hlen Hd).
  eexists. split; [|split].
  - unfold outcome. rewrite (seen_ending r Hr). reflexivity.
  - cbn [journal]. unfold acquired.
    assert ((0 <? total) = false) as -> by lia.
    rewrite update_events_None. cbn [acquire_events stop_events app].
    destruct (reaches_stop (seen r)); rewrite !app_nil_r;
      rewrite checked_journal, List.filter_app;
      destruct (unsuccessful r); cbn; rewrite app_nil_r; reflexivity.
  - cbn [disk]. apply lookup_insert_eq.
Qed.

Lemma download_nonpositive_total_witness :
  let r := streamed {["content-length" := "-5"]} two_chunks (Some KeyboardInterrupt) in
  let w := world_answering r in
  exists w',
    download_file "https://example.org/data.zip" "data.zip" w
      = (Raise KeyboardInterrupt, w')
    /\ List.filter (fun e => negb (is_Debug e)) (journal w') = []
    /\ disk w' !! "data.zip" = Some (concat two_chunks).
Proof.
  intros r w.
  apply (download_nonpositive_total "https://example.org/data.zip" "data.zip" w r (-5)).
  - reflexivity.
  - reflexivity.
  - reflexivity.
  - reflexivity.
  - vm_compute. discriminate.
  - apply not_elem_of_empty.
Defined.

(** X10: a status outside [200, 300) that is not in [400, 600), a 304 or
    a 1xx say, does not stop a download whose body can be read: the
    response is logged as unsuccessful, which reads the whole body, and
    the body is then written to the output path; the call returns. *)
Theorem download_proceeds_on_unraised_status
    (url path : string) (w : World) (r : Response) (total : Z) :
  answers w url r ->
  unsuccessful r = true ->
  error_status r = false ->
  ending r = None ->
  content_length r = Ok total ->
  path ∉ denied w ->
  exists w',
    download_file url path w = (Ok tt, w')
    /\ Debug (unsuccessful_message r) ∈ journal w'
    /\ disk w' !! path = Some (body r).
Proof.
  intros Ha Hu He Hend Hlen Hd.
  assert (read_fails r = None) as Hr
    by (rewrite (read_fails_unsuccessful r Hu); exact Hend).
  rewrite (download_file_run url path w r total Ha Hr He Hlen Hd).
  eexists. split; [|split].
  - unfold outcome. rewrite (seen_ending r Hr), Hend. reflexivity.
  - cbn [journal]. rewrite checked_journal, Hu.
    apply elem_of_app. left. apply elem_of_app. right.
    apply elem_of_cons. right. apply elem_of_cons. left. reflexivity.
  - cbn [disk]. apply lookup_insert_eq.
Qed.

Lemma download_proceeds_on_unraised_status_witness :
  let r := streaming 304 ∅ [[Byte.x61]; [Byte.x62; Byte.x63]] None in
  let w := world_answering r in
  exists w',
    download_file "https://example.org/data.zip" "data.zip" w = (Ok tt, w')
    /\ Debug (unsuccessful_message r) ∈ journal w'
    /\ disk w' !! "data.zip" = Some [Byte.x61; Byte.x62; Byte.x63].
Proof.
  intros r w.
  apply (download_proceeds_on_unraised_status "https://example.org/data.zip" "data.zip"
           w r 0).
  - reflexivity.
  - reflexivity.
  - reflexivity.
  - reflexivity.
  - reflexivity.
  - apply not_elem_of_empty.
Defined.

(** X11: once the status check is passed and the output path opened, what
    the path held before is gone: however the stream ends, the file holds
    exactly the body that arrived, and every other file is as it was. *)
Theorem download_overwrites_only_output
    (url path : string) (w : World) (r : Response) (total : Z) :
  answers w url r ->
  read_fails r = None ->
  error_status r = false ->
  content_length r = Ok total ->
  path ∉ denied w ->
  disk (snd (download_file url path w)) !! path = Some (body r)
  /\ forall other, other ≠ path ->
       disk (snd (download_file url path w)) !! other = disk w !! other.
Proof.
  intros Ha Hr He Hlen Hd.
  rewrite (download_file_run url path w r total Ha Hr He Hlen Hd). cbn [snd disk].
  split; [apply lookup_insert_eq|].
  intros other Hne. apply lookup_insert_ne. congruence.
Qed.

Lemma download_overwrites_only_output_witness :
  let r := streamed ∅ [[Byte.x61]; []; [Byte.x62; Byte.x63]]
             (Some (OtherError "ChunkedEncodingError")) in
  let w := world_with_files r
             {["data.zip" := repeat Byte.x00 9; "notes.txt" := [Byte.x6f; Byte.x6b]]} ∅ in
  (disk (snd (download_file "https://example.org/data.zip" "data.zip" w)) !! "data.zip")
    = Some [Byte.x61; Byte.x62; Byte.x63]
  /\ (disk (snd (download_file "https://example.org/data.zip" "data.zip" w)) !! "notes.txt")
       = Some [Byte.x6f; Byte.x6b].
Proof.
  intros r w.
  assert ("data.zip" ∉ denied w) as Hfree by apply not_elem_of_empty.
  destruct (download_overwrites_only_output "https://example.org/data.zip" "data.zip"
              w r 0 eq_refl eq_refl eq_refl eq_refl Hfree) as [Hout Hrest].
  split; [exact Hout|].
  transitivity (disk w !! "notes.txt"); [apply Hrest; discriminate | reflexivity].
Defined.

(** X12: with a positive total size every chunk that the loop receives
    is followed by one progress update, also when the stream is cut
    short; with no indicator there is none. After a 2xx answer the loop
    receives the chunks of the stream; after an answer outside [200, 300)
    the status check has read the body, and the loop receives it again in
    slices of 8192 bytes. *)
Theorem download_one_update_per_chunk
    (url path : string) (w : World) (r : Response) (total : Z) :
  answers w url r ->
  read_fails r = None ->
  error_status r = false ->
  content_length r = Ok total ->
  path ∉ denied w ->
  length (completions (journal (snd (download_file url path w)))) =
    (length (completions (journal w))
     + if (0 <? total)%Z then length (pieces (seen r)) else 0)%nat
  /\ (unsuccessful r = false -> cached r = None -> pieces (seen r) = chunks r)
  /\ (unsuccessful r = true -> pieces (seen r) = Requests.iter_slices 8192 (body r)).
Proof.
  intros Ha Hr He Hlen Hd. split; [|split].
  - rewrite (download_file_run url path w r total Ha Hr He Hlen Hd). cbn [snd journal].
    rewrite !completions_app, !length_app, completions_checked.
    unfold acquired. destruct (0 <? total).
    + rewrite completions_update_events_length.
      destruct (reaches_stop (seen r)); cbn; lia.
    + rewrite update_events_None. destruct (reaches_stop (seen r)); cbn; lia.
  - intros Hu Hc. rewrite (seen_success r Hu). apply pieces_unread; exact Hc.
  - intros Hu. rewrite (seen_unsuccessful r Hu). apply pieces_consumed.
Qed.

Lemma download_one_update_per_chunk_witness :
  let cs := [repeat Byte.x61 100; repeat Byte.x62 200; repeat Byte.x63 300] in
  let r := streamed {["content-length" := "4096"]} cs (Some KeyboardInterrupt) in
  let r' := streaming 300 {["content-length" := "4096"]} cs None in
  length (completions (journal (snd (download_file "https://example.org/data.zip"
                                       "data.zip" (world_answering r))))) = 3%nat
  /\ length (completions (journal (snd (download_file "https://example.org/data.zip"
                                          "data.zip" (world_answering r'))))) = 1%nat.
Proof.
  intros cs r r'.
  assert (forall x : Response, "data.zip" ∉ denied (world_answering x)) as Hfree
    by (intros x; apply not_elem_of_empty).
  split.
  - exact (proj1 (download_one_update_per_chunk "https://example.org/data.zip" "data.zip"
                    (world_answering r) r 4096 eq_refl eq_refl eq_refl eq_refl (Hfree r))).
  - transitivity (0 + length (pieces (seen r')))%nat; [|vm_compute; reflexivity].
    exact (proj1 (download_one_update_per_chunk "https://example.org/data.zip" "data.zip"
                    (world_answering r') r' 4096 eq_refl eq_refl eq_refl eq_refl
                    (Hfree r'))).
Defined.

(** X13: when the output path cannot be opened, the error of [open]
    reaches the caller and the filesystem is as before; a progress
    indicator acquired for a positive total size has been left without a
    [stop]. *)
Theorem download_open_failure_never_stops
    (url path : string) (w : World) (r : Response) (total : Z) :
  answers w url r ->
  read_fails r = None ->
  error_status r = false ->
  content_length r = Ok total ->
  path ∈ denied w ->
  exists e w',
    download_file url path w = (Raise e, w')
    /\ is_KeyboardInterrupt e = false
    /\ disk w' = disk w
    /\ opened w' = opened w
    /\ count is_ProgressNew (journal w') =
         (count is_ProgressNew (journal w) + if (0 <? total)%Z then 1 else 0)%nat
    /\ count is_Stop (journal w') = count is_Stop (journal w).
Proof.
  intros Ha Hr He Hlen Hd.
  rewrite (download_open_fails url path w r total Ha Hr He Hlen Hd). cbn zeta.
  eexists. eexists. split; [reflexivity|].
  split; [reflexivity|]. split; [reflexivity|]. split; [reflexivity|].
  cbn [journal]. split.
  - rewrite count_app, count_checked, acquired_events_count_new by reflexivity.
    reflexivity.
  - rewrite count_app, count_checked, acquired_events_count_stop by reflexivity.
    lia.
Qed.

Lemma download_open_failure_never_stops_witness :
  let r := streamed {["content-length" := "1024"]} two_chunks None in
  let w := world_with_files r ∅ {["/etc/data.zip"]} in
  exists e w',
    download_file "https://example.org/data.zip" "/etc/data.zip" w = (Raise e, w')
    /\ is_KeyboardInterrupt e = false
    /\ disk w' = disk w
    /\ opened w' = opened w
    /\ count is_ProgressNew (journal w') = 1%nat
    /\ count is_Stop (journal w') = 0%nat.
Proof.
  intros r w.
  apply (download_open_failure_never_stops "https://example.org/data.zip"
           "/etc/data.zip" w r 1024).
  - reflexivity.
  - reflexivity.
  - reflexivity.
  - reflexivity.
  - change ("/etc/data.zip" ∈ ({["/etc/data.zip"]} : gset string)).
    apply elem_of_singleton. reflexivity.
Defined.

(** Every way [download_file] can go. *)
Lemma download_file_cases url path w :
  (exists e,
     transport w "get" url {["stream" := PBool true]} = Raise e
     /\ download_file url path w = (Raise e, record (Debug ("--> GET " +:+ url)) w))
  \/ (exists r e,
        answers w url r
        /\ download_file url path w = (Raise e, record (Debug ("--> GET " +:+ url)) w))
  \/ (exists r e,
        answers w url r
        /\ download_file url path w = (Raise e, checked ("--> GET " +:+ url) r w))
  \/ (exists r total,
        answers w url r /\ read_fails r = None /\ error_status r = false
        /\ content_length r = Ok total
        /\ (path ∈ denied w)
        /\ download_file url path w =
             (Raise (OtherError "PermissionError"),
              mkWorld (transport w)
                (journal (checked ("--> GET " +:+ url) r w)
                   ++ acquire_events
                        (acquired total (journal (checked ("--> GET " +:+ url) r w))))
                (disk w) (opened w) (denied w)))
  \/ (exists r total,
        answers w url r /\ read_fails r = None /\ error_status r = false
        /\ content_length r = Ok total
        /\ (path ∉ denied w)
        /\ download_file url path w =
             (outcome (seen r),
              mkWorld (transport w)
                (journal (checked ("--> GET " +:+ url) r w)
                   ++ acquire_events
                        (acquired total (journal (checked ("--> GET " +:+ url) r w)))
                   ++ update_events
                        (acquired total (journal (checked ("--> GET " +:+ url) r w)))
                        total 0 (pieces (seen r))
                   ++ (if reaches_stop (seen r)
                       then stop_events
                              (acquired total (journal (checked ("--> GET " +:+ url) r w)))
                       else []))
                (<[path := body r]> (disk w))
                (filter (fun p => p ≠ path) (opened w))
                (denied w))).
Proof.
  destruct (transport w "get" url {["stream" := PBool true]}) as [r|e] eqn:Ht.
  2:{ left. exists e. split; [reflexivity|]. apply download_transport_raises; exact Ht. }
  right. destruct (read_fails r) as [e|] eqn:Hr.
  { left. exists r, e. split; [exact Ht|]. apply (download_read_fails url path w r e Ht Hr). }
  right. destruct (error_status r) eqn:He.
  { left. destruct (download_error_status url path w r Ht Hr He) as [message Hrun].
    exists r, (HTTPError message (consumed r)). split; [exact Ht | exact Hrun]. }
  destruct (content_length_cases r) as [[total Hlen] | [v Hlen]].
  2:{ left. exists r, (ValueError v). split; [exact Ht|].
      apply download_length_raises; assumption. }
  right. destruct (decide (path ∈ denied w)) as [Hd|Hd].
  - left. exists r, total. repeat (split; [assumption|]).
    apply (download_open_fails url path w r total Ht Hr He Hlen Hd).
  - right. exists r, total. repeat (split; [assumption|]).
    apply (download_file_run url path w r total Ht Hr He Hlen Hd).
Qed.

(** X14: whatever the transport answers and however the call ends,
    [download_file] keeps the journal it found and only adds to it, leaves
    every file other than the output path as it was, and leaves no handle
    open that was not open before. *)
Theorem download_file_frame (url path : string) (w : World) :
  let w' := snd (download_file url path w) in
  journal w `prefix_of` journal w'
  /\ (forall other, other ≠ path -> disk w' !! other = disk w !! other)
  /\ (forall p, p ∈ opened w' -> p ∈ opened w).
Proof.
  cbn zeta.
  destruct (download_file_cases url path w)
    as [(e & _ & ->) | [(r & e & _ & ->) | [(r & e & _ & ->)
        | [(r & total & _ & _ & _ & _ & _ & ->)
        | (r & total & _ & _ & _ & _ & _ & ->)]]]]; cbn [snd].
  - split; [|split]; [apply prefix_app_r; reflexivity | reflexivity | auto].
  - split; [|split]; [apply prefix_app_r; reflexivity | reflexivity | auto].
  - destruct (checked_frame ("--> GET " +:+ url) r w) as (_ & Ed & Eo & _).
    rewrite Ed, Eo, checked_journal.
    split; [|split]; [apply prefix_app_r; reflexivity | reflexivity | auto].
  - cbn [journal disk opened]. rewrite checked_journal, <- app_assoc.
    split; [|split]; [apply prefix_app_r; reflexivity | reflexivity | auto].
  - cbn [journal disk opened]. rewrite checked_journal, <- app_assoc.
    split; [|split]; [apply prefix_app_r; reflexivity | |].
    + intros other Hne. apply lookup_insert_ne. congruence.
    + intros p Hp. apply list_elem_of_filter in Hp as [_ Hp]. exact Hp.
Qed.

(** X15: [download_file] returns normally only for a body that reached
    its end: when the call returns, the transport had answered with a
    response that passed the status check, the body was not interrupted,
    and the closed output file holds the whole body. *)
Theorem download_return_means_complete
    (url path : string) (w w' : World) :
  download_file url path w = (Ok tt, w') ->
  exists r,
    answers w url r
    /\ error_status r = false
    /\ ending r = None
    /\ disk w' !! path = Some (body r)
    /\ path ∉ opened w'.
Proof.
  intros Hrun.
  destruct (download_file_cases url path w)
    as [(e & _ & H) | [(r & e & _ & H) | [(r & e & _ & H)
        | [(r & total & _ & _ & _ & _ & _ & H)
        | (r & total & Ha & Hr & He & _ & _ & H)]]]];
    rewrite H in Hrun; try discriminate.
  injection Hrun as Hout <-. exists r.
  split; [exact Ha|]. split; [exact He|]. split.
  - unfold outcome in Hout. rewrite (seen_ending r Hr) in Hout.
    destruct (ending r); [discriminate | reflexivity].
  - cbn [disk opened]. split; [apply lookup_insert_eq | apply not_opened_after_close].
Qed.

Lemma download_return_means_complete_witness :
  let r := streamed {["content-length" := "1024"]} two_chunks None in
  let w := world_answering r in
  exists r',
    answers w "https://example.org/data.zip" r'
    /\ error_status r' = false
    /\ ending r' = None
    /\ (disk (snd (download_file "https://example.org/data.zip" "data.zip" w))
          !! "data.zip") = Some (body r')
    /\ "data.zip" ∉ opened (snd (download_file "https://example.org/data.zip" "data.zip" w)).
Proof.
  intros r w.
  apply (download_return_means_complete "https://example.org/data.zip" "data.zip" w
           (snd (download_file "https://example.org/data.zip" "data.zip" w))).
  vm_compute. reflexivity.
Defined.

(** X16: a download with a positive total size whose body reaches its end
    creates one progress indicator, adds to it one task with an empty
    description, sends one update for each chunk the loop receives, and
    stops the indicator exactly once, as the last event of the call. *)
Theorem download_completed_stops_last
    (url path : string) (w : World) (r : Response) (total : Z) :
  answers w url r ->
  error_status r = false ->
  content_length r = Ok total ->
  0 < total ->
  ending r = None ->
  path ∉ denied w ->
  exists w' p task,
    download_file url path w = (Ok tt, w')
    /\ journal w' =
         journal (checked ("--> GET " +:+ url) r w)
           ++ [ProgressNew p; AddTask p EmptyString task]
           ++ update_events (Some (p, task)) total 0 (pieces (seen r))
           ++ [Stop p]
    /\ count is_Stop (journal w') = S (count is_Stop (journal w)).
Proof.
  intros Ha He Hlen Hpos Hend Hd.
  assert (read_fails r = None) as Hr
    by (unfold read_fails; destruct (unsuccessful r); [exact Hend | reflexivity]).
  rewrite (download_file_run url path w r total Ha Hr He Hlen Hd). cbn zeta.
  unfold outcome, reaches_stop, acquired. rewrite (seen_ending r Hr), Hend.
  assert ((0 <? total) = true) as -> by lia.
  eexists. eexists. eexists. split; [reflexivity|]. cbn [journal acquire_events stop_events].
  split; [reflexivity|].
  rewrite !count_app, count_checked, count_update_events by reflexivity.
  cbn. lia.
Qed.

Lemma download_completed_stops_last_witness :
  let r := streamed {["content-length" := "1024"]} two_chunks None in
  let w := world_answering r in
  exists w' p task,
    download_file "https://example.org/data.zip" "data.zip" w = (Ok tt, w')
    /\ journal w' =
         journal (checked "--> GET https://example.org/data.zip" r w)
           ++ [ProgressNew p; AddTask p EmptyString task]
           ++ update_events (Some (p, task)) 1024 0 two_chunks
           ++ [Stop p]
    /\ count is_Stop (journal w') = 1%nat.
Proof.
  intros r w.
  apply (download_completed_stops_last "https://example.org/data.zip" "data.zip" w r 1024).
  - reflexivity.
  - reflexivity.
  - reflexivity.
  - reflexivity.
  - reflexivity.
  - apply not_elem_of_empty.
Defined.

Lemma iter_slices_single (b : bytes) :
  0 < Z.of_nat (length b) <= 8192 -> Requests.iter_slices 8192 b = [b].
Proof.
  intros [Hpos Hle]. unfold Requests.iter_slices.
  assert (length b <= Z.to_nat 8192)%nat as Hle' by lia.
  destruct b as [|x b]; [cbn in Hpos; lia|].
  cbn [length Requests.iter_slices_upto].
  rewrite take_ge, drop_ge by exact Hle'.
  destruct (length b); reflexivity.
Qed.

(** X19: after an answer outside [200, 300) that is not raised for, the
    chunks of the stream are lost to the loop: the status check has read
    the whole body, and a body of at most 8192 bytes comes back as one
    chunk. With a positive total size there is one progress update, for
    the whole body, however many chunks the stream had. *)
Theorem download_drained_single_update
    (url path : string) (w : World) (r : Response) (total : Z) :
  answers w url r ->
  unsuccessful r = true ->
  error_status r = false ->
  ending r = None ->
  content_length r = Ok total ->
  0 < total ->
  0 < Z.of_nat (length (body r)) <= 8192 ->
  path ∉ denied w ->
  completions (journal (snd (download_file url path w))) =
    completions (journal w)
      ++ [mul_int (truediv (Z.of_nat (length (body r))) total) 100].
Proof.
  intros Ha Hu He Hend Hlen Hpos Hsize Hd.
  assert (read_fails r = None) as Hr
    by (rewrite (read_fails_unsuccessful r Hu); exact Hend).
  rewrite (download_file_run url path w r total Ha Hr He Hlen Hd). cbn [snd journal].
  rewrite (seen_unsuccessful r Hu), pieces_consumed, (iter_slices_single _ Hsize).
  unfold acquired. assert ((0 <? total) = true) as -> by lia.
  rewrite !completions_app, completions_checked.
  unfold reaches_stop. rewrite consumed_ending. reflexivity.
Qed.

Lemma download_drained_single_update_witness :
  let r := streaming 300 {["content-length" := "3"]} [[Byte.x61]; [Byte.x62; Byte.x63]] None in
  let w := world_answering r in
  completions (journal (snd (download_file "https://example.org/data.zip" "data.zip" w)))
    = [100%float].
Proof.
  intros r w.
  assert ("data.zip" ∉ denied w) as Hfree by apply not_elem_of_empty.
  assert (0 < Z.of_nat (length (body r)) <= 8192) as Hsize
    by (vm_compute; split; [reflexivity | discriminate]).
  transitivity (completions (journal w)
                  ++ [mul_int (truediv (Z.of_nat (length (body r))) 3) 100]);
    [|vm_compute; reflexivity].
  exact (download_drained_single_update "https://example.org/data.zip" "data.zip" w r 3
           eq_refl eq_refl eq_refl eq_refl eq_refl eq_refl Hsize Hfree).
Defined.
